(** * NetSuite MCP server: the OAuth 2.0 + PKCE authentication subsystem

    A shallow embedding of the JavaScript modules
      - [oauth/pkce.js]            ([base64URLEncode], [generatePKCE])
      - [oauth/sessionStorage.js]  ([SessionStorage.load], [isAuthenticated])
      - [oauth/callbackServer.js]  ([CallbackServer.handleRequest] and the
                                    methods it calls)
      - [oauth/tokenExchange.js]   ([exchangeCodeForTokens],
                                    [refreshAccessToken], [shouldRefreshToken])
      - [mcp/tools.js]             ([NetSuiteMCPTools.fetchTools],
                                    [getMCPEndpoint])
      - [index.js]                 (the handlers of [tools/list] and
                                    [tools/call], [handleAuthentication],
                                    [handleLogout])
    followed by the properties of the specification that concern them.  Each
    definition is preceded by the source text it embeds.  The flow manager
    ([oauth/manager.js]) is not modelled: where a function above calls it,
    its answer is an argument.

    Conventions of the embedding.
      - A JavaScript value is a [jsval]; an object literal or a decoded JSON
        object is a [gmap string jsval] of its own properties.
      - Numbers are the integers (millisecond timestamps, second counts, HTTP
        status codes) and [JNaN]; fractional and infinite doubles are outside
        the model.  Sums, differences and products are those of the integers,
        which is what the doubles give as long as the operands and the result
        are safe integers ([is_safe_integer], below 2^53 in absolute value);
        a statement that gives the value of such a result says so.
      - A call that may throw, or an awaited promise that may reject, returns a
        [completion]: [Normal v] or [Thrown e].
      - What the platform answers (the clock, the file system, the HTTP
        client, the random source) is an explicit argument. *)

From Stdlib Require Import ZArith NArith Ascii String List Lia.
From Stdlib.Strings Require Import Byte.
From stdpp Require Import base option list gmap strings pretty.

#[local] Set Warnings "-register-all".
#[local] Open Scope string_scope.
#[local] Open Scope list_scope.

(* ===================================================================== *)
(** * Part I. The model                                                   *)
(* ===================================================================== *)

(** ** JavaScript values, errors and completions *)

Module JS.

Inductive jsval : Type :=
| JUndefined
| JNull
| JBool (b : bool)
| JNum (n : Z)
| JNaN
| JStr (s : string)
| JArr (items : list jsval)
| JObj (props : gmap string jsval).

(** An [Error] object, with the optional fields the program inspects:
    [error.code] (set by [fs]) and [error.response] (set by axios when the
    server answered with a status outside 2xx). *)
Record js_error : Type := MkError {
  err_message : string;
  err_code : option string;
  err_response : option (Z * jsval)
}.

(** [new Error(message)] *)
Definition Error (message : string) : js_error :=
  {| err_message := message; err_code := None; err_response := None |}.

Inductive completion (A : Type) : Type :=
| Normal (a : A)
| Thrown (e : js_error).
Arguments Normal {A} a.
Arguments Thrown {A} e.

Definition bind {A B} (c : completion A) (k : A -> completion B) : completion B :=
  match c with
  | Normal a => k a
  | Thrown e => Thrown e
  end.

(** [try { body } catch (error) { handler(error) }] *)
Definition try_catch {A} (body : completion A) (handler : js_error -> completion A)
  : completion A :=
  match body with
  | Normal a => Normal a
  | Thrown e => handler e
  end.

(** ToBoolean *)
Definition truthy (v : jsval) : bool :=
  match v with
  | JUndefined | JNull | JNaN => false
  | JBool b => b
  | JNum n => negb (n =? 0)%Z
  | JStr s => negb (String.eqb s EmptyString)
  | JArr _ | JObj _ => true
  end.

(** [a && b] and [a || b] on values (both operands already evaluated: every
    right operand in this program is a side-effect-free property read). *)
Definition js_and (a b : jsval) : jsval := if truthy a then b else a.
Definition js_or (a b : jsval) : jsval := if truthy a then a else b.

(** [o.k] where [o] is known not to be [null] or [undefined].  Only own
    properties of objects are found: none of the property names this
    program reads is a property of a primitive, of an array or of
    [Object.prototype]. *)
Definition get (o : jsval) (k : string) : jsval :=
  match o with
  | JObj props => default JUndefined (props !! k)
  | _ => JUndefined
  end.

Definition type_error_message (o : jsval) (k : string) : string :=
  "Cannot read properties of "
  +:+ (match o with JNull => "null" | _ => "undefined" end)
  +:+ " (reading '" +:+ k +:+ "')".

(** [o.k] in general: reading a property of [null] or [undefined] throws a
    [TypeError]. *)
Definition get_prop (o : jsval) (k : string) : completion jsval :=
  match o with
  | JUndefined | JNull => Thrown (Error (type_error_message o k))
  | _ => Normal (get o k)
  end.

(** [o?.k] *)
Definition get_opt (o : jsval) (k : string) : jsval :=
  match o with
  | JUndefined | JNull => JUndefined
  | _ => get o k
  end.

(** ToNumber.  On strings, arrays and objects the result is whatever the
    engine's string-to-number conversion gives; that conversion is not
    modelled and is the argument [coerce]. *)
Definition to_number (coerce : jsval -> jsval) (v : jsval) : jsval :=
  match v with
  | JUndefined | JNaN => JNaN
  | JNull => JNum 0
  | JBool b => JNum (if b then 1 else 0)
  | JNum n => JNum n
  | JStr _ | JArr _ | JObj _ =>
      match coerce v with
      | JNum n => JNum n
      | _ => JNaN
      end
  end.


(** The arithmetic operators, computed on the integers.  Beyond the safe
    integers the doubles round and these definitions do not: the value of a
    result is that of the program only where [is_safe_integer] holds of the
    operands and of the result. *)
Definition arith (op : Z -> Z -> Z) (coerce : jsval -> jsval) (a b : jsval) : jsval :=
  match to_number coerce a, to_number coerce b with
  | JNum x, JNum y => JNum (op x y)
  | _, _ => JNaN
  end.

(** [a * b], [a - b]; and [a + b] for operands that are numbers already. *)
Definition mul := arith Z.mul.
Definition sub := arith Z.sub.
Definition add_num (a b : jsval) : jsval :=
  match a, b with
  | JNum x, JNum y => JNum (x + y)
  | _, _ => JNaN
  end.

(** [a < b] for operands that are numbers already: false as soon as one of
    them is [NaN]. *)
Definition lt_num (a b : jsval) : bool :=
  match a, b with
  | JNum x, JNum y => (x <? y)%Z
  | _, _ => false
  end.

(** [`${n}`] for an integer. *)
Definition number_to_string (n : Z) : string := pretty n.

End JS.
Export JS.

Notation "'let!' x ':=' c 'in' k" := (JS.bind c (fun x => k))
  (at level 10, x name, c at level 100, k at level 200).

(** ** Base64, as [Buffer.prototype.toString('base64')] produces it

    RFC 4648, section 4: every group of three bytes is a 24-bit number cut
    into four 6-bit digits; a last group of one or two bytes gives two or
    three digits and is filled up to four characters with ['=']. *)

Module Base64.

Definition alphabet : string :=
  "ABCDEFGHIJKLMNOPQRSTUVWXYZabcdefghijklmnopqrstuvwxyz0123456789+/".

Definition pad_char : ascii := "="%char.

(** The character of a 6-bit digit. *)
Definition digit (i : N) : ascii :=
  default pad_char (String.get (N.to_nat i) alphabet).

(** The [k]-th 6-bit digit (from the most significant) of a 24-bit group. *)
Definition sextet (group : N) (k : N) : N :=
  N.land (N.shiftr group (18 - 6 * k)) 63.

Definition group3 (a b c : byte) : N :=
  N.lor (N.shiftl (Byte.to_N a) 16) (N.lor (N.shiftl (Byte.to_N b) 8) (Byte.to_N c)).

Fixpoint to_base64 (buf : list byte) : string :=
  match buf with
  | [] => EmptyString
  | [a] =>
      let g := group3 a x00 x00 in
      String (digit (sextet g 0)) (String (digit (sextet g 1)) "==")
  | [a; b] =>
      let g := group3 a b x00 in
      String (digit (sextet g 0)) (String (digit (sextet g 1))
        (String (digit (sextet g 2)) "="))
  | a :: b :: c :: rest =>
      let g := group3 a b c in
      String (digit (sextet g 0)) (String (digit (sextet g 1))
        (String (digit (sextet g 2)) (String (digit (sextet g 3))
          (to_base64 rest))))
  end.

(** [s.replace(/c/g, d)] for a pattern that is one literal character. *)
Fixpoint replace_all (c : ascii) (d : string) (s : string) : string :=
  match s with
  | EmptyString => EmptyString
  | String x rest =>
      if Ascii.eqb x c then d +:+ replace_all c d rest
      else String x (replace_all c d rest)
  end.

End Base64.

(** ** SHA-256, as [crypto.createHash('sha256').update(s).digest()] computes it

    FIPS 180-4.  Words are 32-bit numbers in [Z]; additions wrap around. *)

Module Sha256.

#[local] Open Scope Z_scope.
#[local] Open Scope list_scope.

Definition wrap (x : Z) : Z := Z.land x 0xffffffff.
Definition add32 (x y : Z) : Z := wrap (x + y).
Definition rotr (n x : Z) : Z := Z.lor (Z.shiftr x n) (wrap (Z.shiftl x (32 - n))).
Definition not32 (x : Z) : Z := Z.lxor x 0xffffffff.

Definition Ch (x y z : Z) : Z := Z.lxor (Z.land x y) (Z.land (not32 x) z).
Definition Maj (x y z : Z) : Z :=
  Z.lxor (Z.lxor (Z.land x y) (Z.land x z)) (Z.land y z).
Definition Sigma0 (x : Z) : Z := Z.lxor (Z.lxor (rotr 2 x) (rotr 13 x)) (rotr 22 x).
Definition Sigma1 (x : Z) : Z := Z.lxor (Z.lxor (rotr 6 x) (rotr 11 x)) (rotr 25 x).
Definition sigma0 (x : Z) : Z := Z.lxor (Z.lxor (rotr 7 x) (rotr 18 x)) (Z.shiftr x 3).
Definition sigma1 (x : Z) : Z := Z.lxor (Z.lxor (rotr 17 x) (rotr 19 x)) (Z.shiftr x 10).

(** The round constants are the first 32 bits of the fractional parts of
    the cube roots of the first 64 primes, and the initial hash value those
    of the square roots of the first 8 primes; they are computed here from
    that definition. *)
Definition is_prime (n : nat) : bool :=
  (1 <? n)%nat && forallb (fun d => negb (n mod d =? 0)%nat) (seq 2 (n - 2)).

Definition first_primes (count : nat) : list Z :=
  map Z.of_nat (firstn count (filter is_prime (seq 2 400))).

(** The integer part of the [k]-th root of [n], found bit by bit. *)
Definition root (k n : Z) : Z :=
  fold_left
    (fun r i => let r' := r + 2 ^ Z.of_nat i in if r' ^ k <=? n then r' else r)
    (rev (seq 0 40)) 0.

Definition fractional_bits (k p : Z) : Z := wrap (root k (p * 2 ^ (32 * k))).

Definition K : list Z := Eval vm_compute in map (fractional_bits 3) (first_primes 64).

Definition H0 : list Z := Eval vm_compute in map (fractional_bits 2) (first_primes 8).

(** Padding: a 1 bit, zeros up to 56 modulo 64 bytes, the bit length on 8
    bytes, big-endian. *)
Definition be_bytes (width : nat) (x : Z) : list Z :=
  map (fun i => Z.land (Z.shiftr x (8 * Z.of_nat (width - 1 - i))) 0xff) (seq 0 width).

Definition pad (msg : list byte) : list Z :=
  let len := Z.of_nat (length msg) in
  let zeros := Z.to_nat ((55 - len) mod 64) in
  map (fun b => Z.of_N (Byte.to_N b)) msg ++ [0x80] ++ repeat 0 zeros ++ be_bytes 8 (8 * len).

Fixpoint be_words (bs : list Z) : list Z :=
  match bs with
  | a :: b :: c :: d :: rest =>
      Z.lor (Z.shiftl a 24) (Z.lor (Z.shiftl b 16) (Z.lor (Z.shiftl c 8) d))
      :: be_words rest
  | _ => []
  end.

(** The message schedule: [window] holds the last sixteen words. *)
Fixpoint schedule (n : nat) (window : list Z) : list Z :=
  match n with
  | O => []
  | S n' =>
      let w := add32 (add32 (sigma1 (nth 14 window 0)) (nth 9 window 0))
                     (add32 (sigma0 (nth 1 window 0)) (nth 0 window 0)) in
      w :: schedule n' (tl window ++ [w])
  end.

Definition round (st : list Z) (kw : Z * Z) : list Z :=
  match st with
  | [a; b; c; d; e; f; g; h] =>
      let t1 := add32 (add32 (add32 h (Sigma1 e)) (add32 (Ch e f g) (fst kw))) (snd kw) in
      let t2 := add32 (Sigma0 a) (Maj a b c) in
      [add32 t1 t2; a; b; c; add32 d t1; e; f; g]
  | _ => st
  end.

Definition zip_with_add (xs ys : list Z) : list Z :=
  map (fun p => add32 (fst p) (snd p)) (combine xs ys).

Definition compress (st : list Z) (block : list Z) : list Z :=
  let w := block ++ schedule 48 block in
  zip_with_add st (fold_left round (combine K w) st).

Fixpoint blocks (n : nat) (ws : list Z) : list (list Z) :=
  match n with
  | O => []
  | S n' => firstn 16 ws :: blocks n' (skipn 16 ws)
  end.

Definition byte_of_Z (x : Z) : byte := default x00 (Byte.of_N (Z.to_N x)).

Definition sha256 (msg : list byte) : list byte :=
  let ws := be_words (pad msg) in
  let st := fold_left compress (blocks (length ws / 16) ws) H0 in
  map byte_of_Z (flat_map (be_bytes 4) st).

End Sha256.

(** ** [src/oauth/pkce.js] *)

Module Pkce.

(** [[
export function base64URLEncode(buffer) {
  return buffer.toString('base64')
    .replace(/\+/g, '-')
    .replace(/\//g, '_')
    .replace(/=/g, '');
}
]] *)
Definition base64URLEncode (buffer : list byte) : string :=
  Base64.replace_all "=" EmptyString
    (Base64.replace_all "/" "_"
      (Base64.replace_all "+" "-" (Base64.to_base64 buffer))).

(** [hash.update(s)] feeds the UTF-8 encoding of [s]; a [string] here is the
    sequence of its bytes, which for a string of ASCII characters is that
    encoding. *)
Definition utf8 (s : string) : list byte :=
  map byte_of_ascii (list_ascii_of_string s).

Record pkce_pair : Type := {
  code_verifier : string;
  code_challenge : string;
  code_challenge_method : string
}.

(** [[
export function generatePKCE() {
  const verifier = base64URLEncode(crypto.randomBytes(32));
  const challenge = base64URLEncode(
    crypto.createHash('sha256').update(verifier).digest()
  );
  return { code_verifier: verifier, code_challenge: challenge,
           code_challenge_method: 'S256' };
}
]]
    [randomBytes n] is what [crypto.randomBytes(n)] answers in this call. *)
Definition generatePKCE (randomBytes : nat -> list byte) : pkce_pair :=
  let verifier := base64URLEncode (randomBytes 32%nat) in
  let challenge := base64URLEncode (Sha256.sha256 (utf8 verifier)) in
  {| code_verifier := verifier;
     code_challenge := challenge;
     code_challenge_method := "S256" |}.

End Pkce.

(** ** The encoding the specification names: base64url without padding

    These definitions follow the words of the specification (RFC 4648,
    section 5, padding omitted), not the source: the encoder writes the
    URL-safe alphabet directly and never pads; the decoder maps ['-'] back to
    ['+'] and ['_'] back to ['/'], restores the padding and reads standard
    base64.  They are what [Pkce.base64URLEncode] is compared with. *)

Module Rfc4648.

Definition url_alphabet : string :=
  "ABCDEFGHIJKLMNOPQRSTUVWXYZabcdefghijklmnopqrstuvwxyz0123456789-_".

Definition url_digit (i : N) : ascii :=
  default Base64.pad_char (String.get (N.to_nat i) url_alphabet).

Fixpoint base64url_nopad (buf : list byte) : string :=
  match buf with
  | [] => EmptyString
  | [a] =>
      let g := Base64.group3 a x00 x00 in
      String (url_digit (Base64.sextet g 0)) (String (url_digit (Base64.sextet g 1)) EmptyString)
  | [a; b] =>
      let g := Base64.group3 a b x00 in
      String (url_digit (Base64.sextet g 0)) (String (url_digit (Base64.sextet g 1))
        (String (url_digit (Base64.sextet g 2)) EmptyString))
  | a :: b :: c :: rest =>
      let g := Base64.group3 a b c in
      String (url_digit (Base64.sextet g 0)) (String (url_digit (Base64.sextet g 1))
        (String (url_digit (Base64.sextet g 2)) (String (url_digit (Base64.sextet g 3))
          (base64url_nopad rest))))
  end.

(** Position of a character in the standard alphabet. *)
Fixpoint index_from (i : N) (c : ascii) (table : string) : option N :=
  match table with
  | EmptyString => None
  | String d rest => if Ascii.eqb c d then Some i else index_from (i + 1) c rest
  end.

Definition digit_value (c : ascii) : option N := index_from 0 c Base64.alphabet.

Definition byte_at (group : N) (k : N) : option byte :=
  Byte.of_N (N.land (N.shiftr group (16 - 8 * k)) 255).

Definition group_of (d0 d1 d2 d3 : N) : N :=
  N.lor (N.shiftl d0 18) (N.lor (N.shiftl d1 12) (N.lor (N.shiftl d2 6) d3)).

(** Standard base64 with padding: groups of four characters; ['='] may only
    close the last group. *)
Fixpoint from_base64 (s : string) : option (list byte) :=
  match s with
  | EmptyString => Some []
  | String c0 (String c1 (String c2 (String c3 rest))) =>
      d0 ← digit_value c0;
      d1 ← digit_value c1;
      if Ascii.eqb c3 Base64.pad_char then
        match rest with
        | EmptyString =>
            if Ascii.eqb c2 Base64.pad_char then
              b0 ← byte_at (group_of d0 d1 0 0) 0;
              Some [b0]
            else
              d2 ← digit_value c2;
              b0 ← byte_at (group_of d0 d1 d2 0) 0;
              b1 ← byte_at (group_of d0 d1 d2 0) 1;
              Some [b0; b1]
        | _ => None
        end
      else
        d2 ← digit_value c2;
        d3 ← digit_value c3;
        b0 ← byte_at (group_of d0 d1 d2 d3) 0;
        b1 ← byte_at (group_of d0 d1 d2 d3) 1;
        b2 ← byte_at (group_of d0 d1 d2 d3) 2;
        tail ← from_base64 rest;
        Some (b0 :: b1 :: b2 :: tail)
  | _ => None
  end.

Fixpoint pad_string (n : nat) : string :=
  match n with
  | O => EmptyString
  | S n' => String Base64.pad_char (pad_string n')
  end.

Definition restore_padding (s : string) : string :=
  s +:+ pad_string ((4 - String.length s mod 4) mod 4).

Definition base64url_decode (s : string) : option (list byte) :=
  from_base64
    (restore_padding
      (Base64.replace_all "_" "/" (Base64.replace_all "-" "+" s))).

(** What the two character replacements of the encoder do to one character,
    and what the two replacements of the decoder do. *)
Definition to_url (c : ascii) : ascii :=
  let c1 := if Ascii.eqb c "+" then "-"%char else c in
  if Ascii.eqb c1 "/" then "_"%char else c1.

Definition of_url (c : ascii) : ascii :=
  let c1 := if Ascii.eqb c "-" then "+"%char else c in
  if Ascii.eqb c1 "_" then "/"%char else c1.

Definition digit_ok (i : N) : bool :=
  match digit_value (Base64.digit i) with Some j => N.eqb j i | None => false end
  && Ascii.eqb (to_url (Base64.digit i)) (url_digit i)
  && Ascii.eqb (of_url (url_digit i)) (Base64.digit i)
  && negb (Ascii.eqb (Base64.digit i) Base64.pad_char)
  && negb (Ascii.eqb (url_digit i) Base64.pad_char)
  && negb (Ascii.eqb (url_digit i) "+")
  && negb (Ascii.eqb (url_digit i) "/")
  && (N_of_ascii (url_digit i) <? 128)%N.

End Rfc4648.

(** ** [src/oauth/sessionStorage.js] *)

Module SessionStorage.

(** What the platform answers to
    [JSON.parse(await fs.readFile(this.sessionFile, 'utf-8'))]:
    the read is rejected with an error (whose [code] is ['ENOENT'] when the
    file does not exist), or the file is read and its text is not JSON
    ([JSON.parse] throws a [SyntaxError], which has no [code]), or the text
    decodes to a value. *)
Inductive session_file : Type :=
| ReadFails (error : js_error)
| ParseFails (message : string)
| Decodes (value : jsval).

Definition read_and_parse (file : session_file) : completion jsval :=
  match file with
  | ReadFails error => Thrown error
  | ParseFails message => Thrown (Error message)
  | Decodes value => Normal value
  end.

(** [[
  async load() {
    try {
      const data = await fs.readFile(this.sessionFile, 'utf-8');
      return JSON.parse(data);
    } catch (error) {
      if (error.code === 'ENOENT') {
        return null; // Session file doesn't exist
      }
      throw error;
    }
  }
]] *)
Definition load (file : session_file) : completion jsval :=
  try_catch (read_and_parse file)
    (fun error =>
       if decide (err_code error = Some "ENOENT") then Normal JNull
       else Thrown error).

(** [[
  async isAuthenticated() {
    try {
      const session = await this.load();
      return !!(session && session.authenticated && session.tokens);
    } catch {
      return false;
    }
  }
]] *)
Definition isAuthenticated (file : session_file) : completion bool :=
  try_catch
    (let! session := load file in
     Normal (truthy (js_and (js_and session (get session "authenticated"))
                            (get session "tokens"))))
    (fun _ => Normal false).

(** The session file does not exist. *)
Definition file_missing (file : session_file) : Prop :=
  exists error, file = ReadFails error /\ err_code error = Some "ENOENT".

(** The access token of a session record, [session.tokens.access_token],
    is present and non-empty. *)
Definition has_access_token (session : jsval) : Prop :=
  exists token, get (get session "tokens") "access_token" = JStr token /\ token <> EmptyString.

(** *** Writing and removing the session file

    [save] and [clear] act on the session file.  The file either does not
    exist or holds a text, and a text is known by what [JSON.parse] makes of
    it. *)
Inductive file_text : Type :=
| JsonText (value : jsval)
| Garbled (message : string).

(** [JSON.parse(JSON.stringify(value, null, 2))]: [None] when
    [JSON.stringify] returns [undefined] instead of a text.  A property
    whose value is [undefined] is left out, [undefined] in an array and
    [NaN] anywhere are written as [null]. *)
Fixpoint json_roundtrip (value : jsval) : option jsval :=
  match value with
  | JUndefined => None
  | JNaN => Some JNull
  | JArr items => Some (JArr (map (fun item => default JNull (json_roundtrip item)) items))
  | JObj props => Some (JObj (omap json_roundtrip props))
  | JNull | JBool _ | JNum _ | JStr _ => Some value
  end.

(** [[
  constructor(storagePath) {
    this.storagePath = storagePath;
    this.sessionFile = path.join(storagePath, 'session.json');
  }
]] *)
Record storage : Type := {
  storagePath : string;
  sessionFile : string
}.

(** What the file system does during one call, beyond what the state of the
    file decides: a step may fail with an error; a failed write leaves the
    file in a state of its own; [fs.writeFile] rejects data that is not a
    text with an error of its own. *)
Record fs_behaviour : Type := {
  mkdir_error : option js_error;
  writeFile_error : option (js_error * option file_text);
  readFile_error : option js_error;
  unlink_error : option js_error;
  invalid_data_error : js_error
}.

(** The error of a system call on a file that does not exist. *)
Definition enoent (syscall path : string) : js_error :=
  {| err_message :=
       "ENOENT: no such file or directory, " +:+ syscall +:+ " '" +:+ path +:+ "'";
     err_code := Some "ENOENT";
     err_response := None |}.

(** [JSON.parse(await fs.readFile(this.sessionFile, 'utf-8'))] on a given
    state of the file. *)
Definition observe (self : storage) (fs : fs_behaviour) (file : option file_text)
  : session_file :=
  match readFile_error fs with
  | Some error => ReadFails error
  | None =>
      match file with
      | None => ReadFails (enoent "open" (sessionFile self))
      | Some (JsonText value) => Decodes value
      | Some (Garbled message) => ParseFails message
      end
  end.

(** [[
  async save(data) {
    try {
      await fs.mkdir(this.storagePath, { recursive: true });
      await fs.writeFile(this.sessionFile, JSON.stringify(data, null, 2));
    } catch (error) {
      console.error('Failed to save session:', error.message);
      throw error;
    }
  }
]] *)
Definition save (self : storage) (fs : fs_behaviour) (data : jsval)
  (file : option file_text) : completion unit * option file_text :=
  match mkdir_error fs with
  | Some error => (Thrown error, file)
  | None =>
      match json_roundtrip data with
      | None => (Thrown (invalid_data_error fs), file)
      | Some written =>
          match writeFile_error fs with
          | Some (error, file') => (Thrown error, file')
          | None => (Normal tt, Some (JsonText written))
          end
      end
  end.

(** [[
  async clear() {
    try {
      await fs.unlink(this.sessionFile);
      console.error('Session cleared');
    } catch {
      // Session file doesn't exist, ignore
    }
  }
]] *)
Definition clear (self : storage) (fs : fs_behaviour) (file : option file_text)
  : completion unit * option file_text :=
  match unlink_error fs with
  | Some _ => (Normal tt, file)
  | None => (Normal tt, None)
  end.

End SessionStorage.

(** ** [src/oauth/callbackServer.js] *)

Module CallbackServer.

(** The request as [new URL(req.url, `http://localhost:${this.port}`)] sees
    it: the constructor throws on a malformed URL, and otherwise gives the
    path and the query parameters in order of appearance. *)
Inductive request : Type :=
| Malformed (error : js_error)
| Url (pathname : string) (searchParams : list (string * string)).

(** [url.searchParams.get(name)]: the first value under [name], or [null]. *)
Fixpoint searchParams_get (name : string) (params : list (string * string))
  : option string :=
  match params with
  | [] => None
  | (k, v) :: rest => if String.eqb k name then Some v else searchParams_get name rest
  end.

(** [haystack.includes(needle)] *)
Fixpoint includes (needle haystack : string) : bool :=
  String.prefix needle haystack
  || match haystack with
     | EmptyString => false
     | String _ rest => includes needle rest
     end.

Inductive page : Type :=
| SuccessPage
| ErrorPage (title message : string).

Section Handler.

(** What the code handler [onCodeReceived] does to the outside world (the
    token exchange request, the session write).  The handler is built by the
    flow manager, which calls [exchangeCodeForTokens] and [SessionStorage.save]
    in it; here it is any function. *)
Context {E : Type}.

Inductive action : Type :=
| WriteHead (status : Z)
| End_ (body : page)
| ServerClose
| AuthPromiseReject (error : js_error)
| AuthPromiseResolve
| OnCodeReceived (code : option string) (effects : list E).

(** The callback handed to [setTimeout]: [() => { this.close();
    this.authPromiseResolve(); }], run later, outside [handleRequest];
    what it does when the timer runs is [fire], below. *)
Inductive timer_callback : Type :=
| CloseThenResolve.

Inductive event : Type :=
| Now (a : action)
| SetTimeout (callback : timer_callback) (ms : Z).

(** The fields of a [CallbackServer] that [handleRequest] reads or writes;
    [server = None] is [this.server = null]. *)
Record callback_server : Type := {
  port : Z;
  server : option unit
}.

(** Methods run on [this] and leave a trace of events. *)
Definition M (A : Type) : Type :=
  callback_server -> completion A * callback_server * list event.

Definition ret {A} (a : A) : M A := fun this => (Normal a, this, []).

Definition throw {A} (e : js_error) : M A := fun this => (Thrown e, this, []).

Definition seq_ {A B} (m : M A) (k : A -> M B) : M B :=
  fun this =>
    match m this with
    | (Normal a, this', tr) =>
        let '(r, this'', tr') := k a this' in (r, this'', tr ++ tr')
    | (Thrown e, this', tr) => (Thrown e, this', tr)
    end.

Definition emit (ev : event) : M unit := fun this => (Normal tt, this, [ev]).

Notation "m >> k" := (seq_ m (fun _ => k)) (at level 62, right associativity).

(** [[
  sendSuccessPage(res) {
    res.writeHead(200, { 'Content-Type': 'text/html; charset=utf-8' });
    res.end(`...`);
  }
]] *)
Definition sendSuccessPage : M unit :=
  emit (Now (WriteHead 200)) >> emit (Now (End_ SuccessPage)).

(** [[
  sendErrorPage(res, title, message) {
    const statusCode = title.includes('Invalid') ? 400 : 500;
    res.writeHead(statusCode, { 'Content-Type': 'text/html; charset=utf-8' });
    res.end(`... ${title} ... ${message} ...`);
  }
]] *)
Definition sendErrorPage (title message : string) : M unit :=
  let statusCode := if includes "Invalid" title then 400%Z else 500%Z in
  emit (Now (WriteHead statusCode)) >> emit (Now (End_ (ErrorPage title message))).

(** [[
  close() {
    if (this.server) {
      this.server.close();
      this.server = null;
    }
  }
]] *)
Definition close : M unit :=
  fun this =>
    match server this with
    | Some _ => (Normal tt, {| port := port this; server := None |}, [Now ServerClose])
    | None => (Normal tt, this, [])
    end.

Definition authPromiseReject (error : js_error) : M unit :=
  emit (Now (AuthPromiseReject error)).

Definition authPromiseResolve : M unit :=
  emit (Now AuthPromiseResolve).

(** The timer runs its callback, on the instance as it is by then:
[[
      setTimeout(() => {
        this.close();
        this.authPromiseResolve();
      }, 3000);
]] *)
Definition fire (callback : timer_callback) : M unit :=
  match callback with
  | CloseThenResolve => close >> authPromiseResolve
  end.

(** [await onCodeReceived(code)] *)
Definition call_handler (onCodeReceived : option string -> list E * completion unit)
  (code : option string) : M unit :=
  fun this =>
    let '(effects, outcome) := onCodeReceived code in
    (outcome, this, [Now (OnCodeReceived code effects)]).

Definition try_ {A} (body : M A) (handler : js_error -> M A) : M A :=
  fun this =>
    match body this with
    | (Normal a, this', tr) => (Normal a, this', tr)
    | (Thrown e, this', tr) =>
        let '(r, this'', tr') := handler e this' in (r, this'', tr ++ tr')
    end.

(** A query parameter is truthy when present and not the empty string. *)
Definition param_truthy (p : option string) : bool :=
  match p with
  | Some s => negb (String.eqb s EmptyString)
  | None => false
  end.

(** [state !== expectedState] *)
Definition state_differs (state : option string) (expectedState : string) : bool :=
  match state with
  | Some s => negb (String.eqb s expectedState)
  | None => true
  end.

(** [[
  async handleRequest(req, res, expectedState, onCodeReceived) {
    const url = new URL(req.url, `http://localhost:${this.port}`);
    if (url.pathname !== '/callback') { return; }
    const code = url.searchParams.get('code');
    const state = url.searchParams.get('state');
    const error = url.searchParams.get('error');
    if (error) {
      this.sendErrorPage(res, 'Authentication Failed', error);
      this.close();
      this.authPromiseReject(new Error(error));
      return;
    }
    if (state !== expectedState) {
      this.sendErrorPage(res, 'Invalid State', 'CSRF validation failed. Please try again.');
      this.close();
      this.authPromiseReject(new Error('Invalid state parameter'));
      return;
    }
    try {
      await onCodeReceived(code);
      this.sendSuccessPage(res);
      setTimeout(() => { this.close(); this.authPromiseResolve(); }, 3000);
    } catch (error) {
      this.sendErrorPage(res, 'Token Exchange Failed', error.message);
      this.close();
      this.authPromiseReject(error);
    }
  }
]] *)
Definition handleRequest (req : request) (expectedState : string)
  (onCodeReceived : option string -> list E * completion unit) : M unit :=
  match req with
  | Malformed e => throw e
  | Url pathname searchParams =>
      if negb (String.eqb pathname "/callback") then ret tt
      else
        let code := searchParams_get "code" searchParams in
        let state := searchParams_get "state" searchParams in
        let error := searchParams_get "error" searchParams in
        if param_truthy error then
          sendErrorPage "Authentication Failed" (default EmptyString error) >>
          close >>
          authPromiseReject (Error (default EmptyString error))
        else if state_differs state expectedState then
          sendErrorPage "Invalid State" "CSRF validation failed. Please try again." >>
          close >>
          authPromiseReject (Error "Invalid state parameter")
        else
          try_
            (call_handler onCodeReceived code >>
             sendSuccessPage >>
             emit (SetTimeout CloseThenResolve 3000))
            (fun error =>
               sendErrorPage "Token Exchange Failed" (err_message error) >>
               close >>
               authPromiseReject error)
  end.

(** The code handler was invoked somewhere in a trace. *)
Definition invokes_handler (ev : event) : bool :=
  match ev with
  | Now (OnCodeReceived _ _) => true
  | _ => false
  end.

Definition is_failure_page (ev : event) : bool :=
  match ev with
  | Now (End_ (ErrorPage _ _)) => true
  | _ => false
  end.

Definition is_reject (ev : event) : bool :=
  match ev with
  | Now (AuthPromiseReject _) => true
  | _ => false
  end.



Definition rejections (trace : list event) : list js_error :=
  flat_map (fun ev => match ev with Now (AuthPromiseReject e) => [e] | _ => [] end) trace.

Definition resolutions (trace : list event) : nat :=
  length (List.filter (fun ev => match ev with Now AuthPromiseResolve => true | _ => false end)
            trace).

Definition handler_calls (trace : list event) : list (option string * list E) :=
  flat_map
    (fun ev => match ev with Now (OnCodeReceived code effects) => [(code, effects)] | _ => [] end)
    trace.

Definition timers (trace : list event) : list (timer_callback * Z) :=
  flat_map (fun ev => match ev with SetTimeout cb ms => [(cb, ms)] | _ => [] end) trace.

Definition closes (trace : list event) : nat :=
  length (List.filter (fun ev => match ev with Now ServerClose => true | _ => false end) trace).

(** The instance once [close] has run, and what [close] adds to the trace. *)
Definition closed (this : callback_server) : callback_server :=
  {| port := port this; server := None |}.

Definition close_trace (this : callback_server) : list event :=
  match server this with Some _ => [Now ServerClose] | None => [] end.

(** A query parameter of a request; none on a malformed one. *)
Definition param (name : string) (req : request) : option string :=
  match req with
  | Malformed _ => None
  | Url _ searchParams => searchParams_get name searchParams
  end.

Definition on_callback_path (req : request) : bool :=
  match req with
  | Malformed _ => false
  | Url pathname _ => String.eqb pathname "/callback"
  end.

(** The request passes the three tests of [handleRequest] that precede the
    [try] statement: the path is the callback path, there is no (non-empty)
    [error] parameter, and [state] is the expected one. *)
Definition accepted (req : request) (expectedState : string) : bool :=
  match req with
  | Malformed _ => false
  | Url pathname searchParams =>
      String.eqb pathname "/callback"
      && negb (param_truthy (searchParams_get "error" searchParams))
      && negb (state_differs (searchParams_get "state" searchParams) expectedState)
  end.

End Handler.

Arguments action : clear implicits.
Arguments event : clear implicits.
Arguments M : clear implicits.

End CallbackServer.

(** ** [src/oauth/tokenExchange.js] *)

Module TokenExchange.

(** What [await axios.post(...)] answers: a response with a 2xx status, or
    a rejection.  For a status outside 2xx axios rejects with an error whose
    [response] holds the status and the body; when no response arrived
    (network failure, timeout) the error has a [message] only.

    [data] is the body as axios delivers it: the value that the body
    decodes to when it is a JSON text, the text itself when it is not, and
    the empty string when the body is empty.  So [data] is [null] for the
    body [null], and for no other answer of a server. *)
Record axios_response : Type := {
  status : Z;
  data : jsval
}.

Inductive axios_outcome : Type :=
| Resolved (response : axios_response)
| Rejected (error : js_error).

Definition await (o : axios_outcome) : completion axios_response :=
  match o with
  | Resolved response => Normal response
  | Rejected error => Thrown error
  end.

(** A POST to the token endpoint of an account,
    [`https://${accountId}.suitetalk.api.netsuite.com/services/rest/auth/oauth2/v1/token`],
    with a form-encoded body and no [Authorization] header. *)
Record token_request : Type := {
  account : jsval;
  params : list (string * jsval)
}.

(** The platform during one call: the clock, the token endpoint, and the
    engine's conversion of strings and objects to numbers. *)
Record world : Type := {
  now : Z;
  post : token_request -> axios_outcome;
  coerce : jsval -> jsval
}.

Record config : Type := {
  accountId : jsval;
  clientId : jsval;
  redirectUri : jsval
}.

(** [error.response?.status || error.message], inside a template string. *)
Definition status_or_message (error : js_error) : string :=
  match err_response error with
  | Some (st, _) => if (st =? 0)%Z then err_message error else number_to_string st
  | None => err_message error
  end.

Definition exchange_request (code : jsval) (cfg : config) (codeVerifier : jsval)
  : token_request :=
  {| account := accountId cfg;
     params := [("grant_type", JStr "authorization_code");
                ("code", code);
                ("redirect_uri", redirectUri cfg);
                ("client_id", clientId cfg);
                ("code_verifier", codeVerifier)] |}.

(** [[
export async function exchangeCodeForTokens(code, config, codeVerifier) {
  const tokenUrl = `https://${config.accountId}.suitetalk.api.netsuite.com/...`;
  const params = { grant_type: 'authorization_code', code: code,
    redirect_uri: config.redirectUri, client_id: config.clientId,
    code_verifier: codeVerifier };
  try {
    const response = await axios.post(tokenUrl, new URLSearchParams(params), {...});
    const tokens = {
      access_token: response.data.access_token,
      refresh_token: response.data.refresh_token,
      expires_in: response.data.expires_in,
      expires_at: Date.now() + (response.data.expires_in * 1000),
      accountId: config.accountId,
      clientId: config.clientId
    };
    return tokens;
  } catch (error) {
    throw new Error(`Failed to exchange authorization code: ${error.response?.status || error.message}`);
  }
}
]] *)
Definition exchangeCodeForTokens (w : world) (code : jsval) (cfg : config)
  (codeVerifier : jsval) : completion jsval :=
  try_catch
    (let! response := await (post w (exchange_request code cfg codeVerifier)) in
     let! access_token := get_prop (data response) "access_token" in
     let! refresh_token := get_prop (data response) "refresh_token" in
     let! expires_in := get_prop (data response) "expires_in" in
     let expires_at := add_num (JNum (now w)) (mul (coerce w) expires_in (JNum 1000)) in
     Normal (JObj (<["access_token" := access_token]>
                  (<["refresh_token" := refresh_token]>
                  (<["expires_in" := expires_in]>
                  (<["expires_at" := expires_at]>
                  (<["accountId" := accountId cfg]>
                  (<["clientId" := clientId cfg]> ∅))))))))
    (fun error =>
       Thrown (Error ("Failed to exchange authorization code: "
                      +:+ status_or_message error))).

Definition refresh_request (tokens : gmap string jsval) : token_request :=
  {| account := get (JObj tokens) "accountId";
     params := [("grant_type", JStr "refresh_token");
                ("refresh_token", get (JObj tokens) "refresh_token");
                ("client_id", get (JObj tokens) "clientId")] |}.

(** [[
export async function refreshAccessToken(tokens) {
  const { refresh_token, accountId, clientId } = tokens;
  const tokenUrl = `https://${accountId}.suitetalk.api.netsuite.com/...`;
  const params = { grant_type: 'refresh_token', refresh_token: refresh_token,
                   client_id: clientId };
  try {
    const response = await axios.post(tokenUrl, new URLSearchParams(params), {...});
    const newTokens = {
      ...tokens,
      access_token: response.data.access_token,
      refresh_token: response.data.refresh_token || refresh_token,
      expires_in: response.data.expires_in,
      expires_at: Date.now() + (response.data.expires_in * 1000)
    };
    return newTokens;
  } catch (error) {
    throw new Error('Failed to refresh access token. Please re-authenticate.');
  }
}
]]
    [tokens] is an object: the token record of the session. *)
Definition refreshAccessToken (w : world) (tokens : gmap string jsval)
  : completion jsval :=
  let refresh_token := get (JObj tokens) "refresh_token" in
  try_catch
    (let! response := await (post w (refresh_request tokens)) in
     let! access_token' := get_prop (data response) "access_token" in
     let! refresh_token' := get_prop (data response) "refresh_token" in
     let! expires_in := get_prop (data response) "expires_in" in
     let expires_at := add_num (JNum (now w)) (mul (coerce w) expires_in (JNum 1000)) in
     Normal (JObj (<["expires_at" := expires_at]>
                  (<["expires_in" := expires_in]>
                  (<["refresh_token" := js_or refresh_token' refresh_token]>
                  (<["access_token" := access_token']> tokens))))))
    (fun _ => Thrown (Error "Failed to refresh access token. Please re-authenticate.")).

(** [[
export function shouldRefreshToken(tokens) {
  const timeUntilExpiry = tokens.expires_at - Date.now();
  const fiveMinutes = 5 * 60 * 1000;
  return timeUntilExpiry < fiveMinutes;
}
]] *)
Definition shouldRefreshToken (w : world) (tokens : gmap string jsval) : bool :=
  let timeUntilExpiry := sub (coerce w) (get (JObj tokens) "expires_at") (JNum (now w)) in
  let fiveMinutes := JNum (5 * 60 * 1000) in
  lt_num timeUntilExpiry fiveMinutes.

(** The records that the two functions build from the [data] of a
    response, here [body]. *)
Definition expiry (w : world) (body : jsval) : jsval :=
  add_num (JNum (now w)) (mul (coerce w) (get body "expires_in") (JNum 1000)).

Definition exchanged_record (w : world) (cfg : config) (body : jsval)
  : gmap string jsval :=
  <["access_token" := get body "access_token"]>
  (<["refresh_token" := get body "refresh_token"]>
  (<["expires_in" := get body "expires_in"]>
  (<["expires_at" := expiry w body]>
  (<["accountId" := accountId cfg]>
  (<["clientId" := clientId cfg]> ∅))))).

Definition refreshed_record (w : world) (tokens : gmap string jsval) (body : jsval)
  : gmap string jsval :=
  <["expires_at" := expiry w body]>
  (<["expires_in" := get body "expires_in"]>
  (<["refresh_token" := js_or (get body "refresh_token") (get (JObj tokens) "refresh_token")]>
  (<["access_token" := get body "access_token"]> tokens))).


End TokenExchange.

(** ** [src/mcp/tools.js] *)

Module McpTools.

Import TokenExchange.

(** The JSON-RPC call [tools/list] posted to the MCP endpoint of an account,
    [`https://${accountId}.suitetalk.api.netsuite.com/services/mcp/v1/all`],
    with the bearer token in the [Authorization] header. *)
Record tools_request : Type := {
  endpoint : jsval;
  id : string;
  method : string;
  bearer : jsval
}.

(** The fields of a [NetSuiteMCPTools] instance; [lastToolsFetch = None] is
    [this.lastToolsFetch = null], and it is otherwise a value of
    [Date.now()]. *)
Record tools_client : Type := {
  toolsCache : jsval;
  lastToolsFetch : option Z;
  toolsCacheTTL : Z
}.

(** [[
  constructor(oauthManager) {
    this.oauthManager = oauthManager;
    this.toolsCache = null;
    this.lastToolsFetch = null;
    this.toolsCacheTTL = 5 * 60 * 1000; // 5 minutes cache
  }
]] *)
Definition constructor : tools_client :=
  {| toolsCache := JNull; lastToolsFetch := None; toolsCacheTTL := 5 * 60 * 1000 |}.

(** The platform and the collaborators during one call of [fetchTools]:
    the two readings of the clock, what the OAuth manager answers (its
    source, [src/oauth/manager.js], is not part of the model), the request
    id that [generateRequestId] draws, the MCP endpoint, and the engine's
    conversion of a non-string value to a string. *)
Record world : Type := {
  now_at_check : Z;
  ensureValidToken : completion jsval;
  getAccountId : completion jsval;
  generateRequestId : string;
  post : tools_request -> axios_outcome;
  now_at_store : Z;
  to_string : jsval -> string
}.

(** The calls that leave the instance, in order. *)
Inductive call : Type :=
| EnsureValidToken
| GetAccountId
| Post (request : tools_request).

(** [new Error(value)]: the message is [value] converted to a string. *)
Definition Error_of (w : world) (value : jsval) : js_error :=
  Error (match value with JStr s => s | _ => to_string w value end).

(** [[
  async getMCPEndpoint() {
    const accountId = await this.oauthManager.getAccountId();
    if (!accountId) {
      throw new Error('Account ID not found. Please authenticate first.');
    }
    return `https://${accountId}.suitetalk.api.netsuite.com/services/mcp/v1/all`;
  }
]] *)
Definition getMCPEndpoint (w : world) : completion jsval :=
  let! accountId := getAccountId w in
  if truthy accountId then Normal accountId
  else Thrown (Error "Account ID not found. Please authenticate first.").

(** The first statement of [fetchTools]:
[[
    if (this.toolsCache && this.lastToolsFetch) {
      const age = Date.now() - this.lastToolsFetch;
      if (age < this.toolsCacheTTL) {
        return this.toolsCache;
      }
    }
]]
    [cache_valid] tells whether that [return] is taken. *)
Definition cache_valid (w : world) (this : tools_client) : bool :=
  truthy (toolsCache this)
  && match lastToolsFetch this with
     | Some fetched =>
         negb (fetched =? 0)%Z
         && (let age := (now_at_check w - fetched)%Z in (age <? toolsCacheTTL this)%Z)
     | None => false
     end.

(** The [try] statement of [fetchTools]:
[[
    try {
      const response = await axios.post(endpoint, { jsonrpc: '2.0',
        id: this.generateRequestId(), method: 'tools/list', params: {} }, {...});
      if (response.data.error) {
        throw new Error(response.data.error.message || 'Failed to fetch tools');
      }
      if (response.data.result && response.data.result.tools) {
        this.toolsCache = response.data.result.tools;
        this.lastToolsFetch = Date.now();
        return this.toolsCache;
      }
      return [];
    } catch (error) {
      if (error.response?.status === 401) {
        throw new Error('NetSuite authentication failed. Please re-authenticate.');
      }
      throw new Error(`Failed to fetch tools: ${error.message}`);
    }
]] *)
Definition list_request (w : world) (accessToken endpoint_ : jsval) : tools_request :=
  {| endpoint := endpoint_; id := generateRequestId w; method := "tools/list";
     bearer := accessToken |}.

Definition list_body (w : world) (this : tools_client) (request : tools_request)
  : completion (jsval * tools_client) :=
  let! response := await (post w request) in
  let! error := get_prop (data response) "error" in
  if truthy error then
    Thrown (Error_of w (js_or (get error "message") (JStr "Failed to fetch tools")))
  else
    let result := get (data response) "result" in
    if truthy (js_and result (get result "tools")) then
      let tools := get result "tools" in
      Normal (tools,
              {| toolsCache := tools;
                 lastToolsFetch := Some (now_at_store w);
                 toolsCacheTTL := toolsCacheTTL this |})
    else Normal (JArr [], this).

Definition list_handler (error : js_error) : js_error :=
  match err_response error with
  | Some (401%Z, _) => Error "NetSuite authentication failed. Please re-authenticate."
  | _ => Error ("Failed to fetch tools: " +:+ err_message error)
  end.

Definition list_tools (w : world) (this : tools_client) (request : tools_request)
  : completion jsval * tools_client :=
  match list_body w this request with
  | Normal (tools, this') => (Normal tools, this')
  | Thrown error => (Thrown (list_handler error), this)
  end.

(** [[
  async fetchTools() {
    if (this.toolsCache && this.lastToolsFetch) { ... return this.toolsCache; ... }
    const accessToken = await this.oauthManager.ensureValidToken();
    const endpoint = await this.getMCPEndpoint();
    try { ... } catch (error) { ... }
  }
]] *)
Definition fetchTools (w : world) (this : tools_client)
  : completion jsval * tools_client * list call :=
  if cache_valid w this then (Normal (toolsCache this), this, [])
  else
    match ensureValidToken w with
    | Thrown error => (Thrown error, this, [EnsureValidToken])
    | Normal accessToken =>
        match getMCPEndpoint w with
        | Thrown error => (Thrown error, this, [EnsureValidToken; GetAccountId])
        | Normal endpoint_ =>
            let request := list_request w accessToken endpoint_ in
            let '(outcome, this') := list_tools w this request in
            (outcome, this', [EnsureValidToken; GetAccountId; Post request])
        end
    end.

(** The remote listing call fails: the request is rejected, or the [data]
    of the response is [null] or [undefined], or it carries a JSON-RPC
    error. *)
Definition listing_fails (o : axios_outcome) : Prop :=
  match o with
  | Rejected _ => True
  | Resolved response =>
      data response = JNull \/ data response = JUndefined
      \/ truthy (get (data response) "error") = true
  end.

(** *** The other methods of the class *)

(** [[
  clearCache() {
    this.toolsCache = null;
    this.lastToolsFetch = null;
  }
]] *)
Definition clearCache (this : tools_client) : tools_client :=
  {| toolsCache := JNull; lastToolsFetch := None; toolsCacheTTL := toolsCacheTTL this |}.

(** [Math.round(ms / 1000)] for an integer number of milliseconds: halves
    are rounded towards plus infinity. *)
Definition round_seconds (ms : Z) : Z := ((ms + 500) / 1000)%Z.

(** [value.length] of a truthy value: the number of items of an array, the
    number of UTF-16 units of a string (the argument [string_length]), the
    own property of an object, and [undefined] otherwise. *)
Definition length_of (string_length : string -> Z) (value : jsval) : jsval :=
  match value with
  | JArr items => JNum (Z.of_nat (length items))
  | JStr s => JNum (string_length s)
  | _ => get value "length"
  end.

(** [[
  getCacheStatus() {
    if (!this.toolsCache) {
      return { cached: false };
    }
    const age = Date.now() - this.lastToolsFetch;
    return {
      cached: true,
      toolCount: this.toolsCache.length,
      ageSeconds: Math.round(age / 1000),
      expiresIn: Math.round((this.toolsCacheTTL - age) / 1000)
    };
  }
]] *)
Definition getCacheStatus (now_ : Z) (string_length : string -> Z) (this : tools_client)
  : gmap string jsval :=
  if negb (truthy (toolsCache this)) then <["cached" := JBool false]> ∅
  else
    let age := (now_ - default 0 (lastToolsFetch this))%Z in
    <["cached" := JBool true]>
    (<["toolCount" := length_of string_length (toolsCache this)]>
    (<["ageSeconds" := JNum (round_seconds age)]>
    (<["expiresIn" := JNum (round_seconds (toolsCacheTTL this - age))]> ∅))).

(** [tool => tool.name === toolName] *)
Definition named (toolName : string) (tool : jsval) : bool :=
  match get tool "name" with
  | JStr name => String.eqb name toolName
  | _ => false
  end.

(** [items.find(tool => tool.name === toolName)]: reading the name of a
    [null] item throws. *)
Fixpoint find_tool (toolName : string) (items : list jsval) : completion jsval :=
  match items with
  | [] => Normal JUndefined
  | tool :: rest =>
      let! _ := get_prop tool "name" in
      if named toolName tool then Normal tool else find_tool toolName rest
  end.

(** [this.toolsCache?.find(...)] *)
Definition find_in_cache (toolName : string) (cache : jsval) : completion jsval :=
  match cache with
  | JNull | JUndefined => Normal JUndefined
  | JArr items => find_tool toolName items
  | _ => Thrown (Error "this.toolsCache?.find is not a function")
  end.

(** [[
  async getTool(toolName) {
    if (!this.toolsCache) {
      await this.fetchTools();
    }
    return this.toolsCache?.find(tool => tool.name === toolName);
  }
]] *)
Definition getTool (w : world) (toolName : string) (this : tools_client)
  : completion jsval * tools_client * list call :=
  if negb (truthy (toolsCache this)) then
    match fetchTools w this with
    | (Normal _, this', calls) => (find_in_cache toolName (toolsCache this'), this', calls)
    | (Thrown error, this', calls) => (Thrown error, this', calls)
    end
  else (find_in_cache toolName (toolsCache this), this, []).

(** The JSON-RPC call [tools/call] posted to the MCP endpoint. *)
Record call_request : Type := {
  call_endpoint : jsval;
  call_id : string;
  call_method : string;
  call_bearer : jsval;
  call_name : jsval;
  call_arguments : jsval
}.

Definition tool_request (w : world) (accessToken endpoint_ toolName parameters : jsval)
  : call_request :=
  {| call_endpoint := endpoint_; call_id := generateRequestId w;
     call_method := "tools/call"; call_bearer := accessToken;
     call_name := toolName; call_arguments := js_or parameters (JObj ∅) |}.

Definition call_handler (error : js_error) : js_error :=
  match err_response error with
  | Some (401%Z, _) => Error "NetSuite authentication failed. Please re-authenticate."
  | _ => Error ("Tool execution failed: " +:+ err_message error)
  end.

(** [[
  async executeTool(toolName, parameters) {
    const accessToken = await this.oauthManager.ensureValidToken();
    const endpoint = await this.getMCPEndpoint();
    try {
      const response = await axios.post(endpoint, { jsonrpc: '2.0',
        id: this.generateRequestId(), method: 'tools/call',
        params: { name: toolName, arguments: parameters || {} } }, {...});
      if (response.data.error) {
        const errorMsg = response.data.error.message || 'Tool execution failed';
        throw new Error(errorMsg);
      }
      return response.data.result;
    } catch (error) {
      if (error.response?.status === 401) {
        throw new Error('NetSuite authentication failed. Please re-authenticate.');
      }
      throw new Error(`Tool execution failed: ${error.message}`);
    }
  }
]]
    [post_call] is what the endpoint answers to a [tools/call] request. *)
Definition executeTool (w : world) (post_call : call_request -> axios_outcome)
  (toolName parameters : jsval) : completion jsval :=
  let! accessToken := ensureValidToken w in
  let! endpoint_ := getMCPEndpoint w in
  try_catch
    (let! response := await (post_call (tool_request w accessToken endpoint_ toolName parameters)) in
     let! error := get_prop (data response) "error" in
     if truthy error then
       Thrown (Error_of w (js_or (get error "message") (JStr "Tool execution failed")))
     else Normal (get (data response) "result"))
    (fun error => Thrown (call_handler error)).

(** The tools of a response: [response.data.result.tools]. *)
Definition tools_of (response : axios_response) : jsval :=
  get (get (data response) "result") "tools".

(** The response is a listing: its [data] is neither [null] nor
    [undefined], carries no error and holds a (truthy) list of tools. *)
Definition lists_tools (response : axios_response) : Prop :=
  data response <> JNull /\ data response <> JUndefined
  /\ truthy (get (data response) "error") = false
  /\ truthy (tools_of response) = true.

End McpTools.

(** ** [src/index.js]: the handlers of the MCP server

    The texts that the handlers send back are kept by name, with the parts
    that vary as arguments; the descriptors of the local tools are kept
    whole. *)

Module McpServer.

Import TokenExchange McpTools.

(** An object literal. *)
Definition obj (props : list (string * jsval)) : jsval :=
  JObj (list_to_map props).

Definition string_property (description : string) : jsval :=
  obj [("type", JStr "string"); ("description", JStr description)].

(** The three places of [setupHandlers] that offer local tools. *)
Definition authenticate_tool : jsval :=
  obj [("name", JStr "netsuite_authenticate");
       ("description",
        JStr "Authenticate with NetSuite to access MCP tools. Required before using any NetSuite tools. If NETSUITE_ACCOUNT_ID and NETSUITE_CLIENT_ID environment variables are set, they will be used automatically.");
       ("inputSchema",
        obj [("type", JStr "object");
             ("properties",
              obj [("accountId",
                    string_property "NetSuite Account ID (e.g., 1234567 or 1234567_SB1 for sandbox). Optional if NETSUITE_ACCOUNT_ID env var is set.");
                   ("clientId",
                    string_property "OAuth 2.0 Client ID from NetSuite integration record. Optional if NETSUITE_CLIENT_ID env var is set.")]);
             ("required", JArr [])])].

Definition logout_tool_when_unauthenticated : jsval :=
  obj [("name", JStr "netsuite_logout");
       ("description", JStr "Clear NetSuite authentication session");
       ("inputSchema", obj [("type", JStr "object"); ("properties", obj [])])].

Definition logout_tool : jsval :=
  obj [("name", JStr "netsuite_logout");
       ("description", JStr "Clear NetSuite authentication session and logout");
       ("inputSchema", obj [("type", JStr "object"); ("properties", obj [])])].

Definition authenticate_tool_on_error : jsval :=
  obj [("name", JStr "netsuite_authenticate");
       ("description",
        JStr "Authenticate with NetSuite to access MCP tools. If NETSUITE_ACCOUNT_ID and NETSUITE_CLIENT_ID environment variables are set, they will be used automatically.");
       ("inputSchema",
        obj [("type", JStr "object");
             ("properties",
              obj [("accountId",
                    string_property "NetSuite Account ID. Optional if NETSUITE_ACCOUNT_ID env var is set.");
                   ("clientId",
                    string_property "OAuth Client ID. Optional if NETSUITE_CLIENT_ID env var is set.")]);
             ("required", JArr [])])].

(** The fields of a [NetSuiteMCPServer] that the handlers read or write. *)
Record server : Type := {
  isAuthenticated : jsval;
  mcpTools : tools_client
}.

(** The collaborators and the platform during one request: the OAuth
    manager ([src/oauth/manager.js], not part of the model), the process
    environment, the world of the tools client, the endpoint that answers
    [tools/call], [JSON.stringify(result, null, 2)] and the iteration of a
    string. *)
Record world : Type := {
  hasValidSession : completion jsval;
  startAuthFlow : jsval -> jsval -> completion unit;
  clearSession : completion unit;
  callbackPort : jsval;
  NETSUITE_ACCOUNT_ID : jsval;
  NETSUITE_CLIENT_ID : jsval;
  tools_world : McpTools.world;
  post_call : call_request -> axios_outcome;
  stringify : jsval -> jsval;
  iterate_string : string -> list jsval
}.

(** What leaves the server during a request. *)
Inductive server_call : Type :=
| HasValidSession
| StartAuthFlow (accountId clientId : jsval)
| ClearSession
| FetchTools (calls : list call)
| ExecuteTool (name args : jsval).

(** [[...tools]] *)
Definition spread (w : world) (tools : jsval) : completion (list jsval) :=
  match tools with
  | JArr items => Normal items
  | JStr s => Normal (iterate_string w s)
  | _ => Thrown (Error "tools is not iterable")
  end.

Definition with_flag (flag : jsval) (this : server) : server :=
  {| isAuthenticated := flag; mcpTools := mcpTools this |}.

Definition with_tools (client : tools_client) (this : server) : server :=
  {| isAuthenticated := isAuthenticated this; mcpTools := client |}.

(** The handler of [tools/list]:
[[
    this.server.setRequestHandler(ListToolsRequestSchema, async () => {
      try {
        this.isAuthenticated = await this.oauthManager.hasValidSession();
        if (!this.isAuthenticated) {
          return { tools: [ {name: 'netsuite_authenticate', ...},
                            {name: 'netsuite_logout', ...} ] };
        }
        const tools = await this.mcpTools.fetchTools();
        const allTools = [ ...tools, {name: 'netsuite_logout', ...} ];
        return { tools: allTools };
      } catch (error) {
        return { tools: [ {name: 'netsuite_authenticate', ...} ] };
      }
    });
]]
    The result is the array under [tools]. *)
Definition listTools (w : world) (this : server)
  : list jsval * server * list server_call :=
  match hasValidSession w with
  | Thrown _ => ([authenticate_tool_on_error], this, [HasValidSession])
  | Normal valid =>
      let this1 := with_flag valid this in
      if negb (truthy valid) then
        ([authenticate_tool; logout_tool_when_unauthenticated], this1, [HasValidSession])
      else
        let '(outcome, client, calls) := fetchTools (tools_world w) (mcpTools this1) in
        let this2 := with_tools client this1 in
        match (let! tools := outcome in spread w tools) with
        | Normal items =>
            (items ++ [logout_tool], this2, [HasValidSession; FetchTools calls])
        | Thrown _ =>
            ([authenticate_tool_on_error], this2, [HasValidSession; FetchTools calls])
        end
  end.

(** The texts of the replies, by name. *)
Inductive reply_text : Type :=
| MissingCredentials
| AuthenticationSucceeded
| AuthenticationFailed (message : string) (port_ : jsval)
| LoggedOut
| LogoutFailed (message : string)
| NotAuthenticated
| ToolOutput (text : jsval)
| ToolError (message : string).

(** [{ content: [{ type: 'text', text }], isError }]; [isError] is [false]
    for a reply that has no such field. *)
Record reply : Type := {
  text : reply_text;
  isError : bool
}.

Definition M (A : Type) : Type := server -> A * server * list server_call.

(** [[
  async handleAuthentication(args) {
    const accountId = args.accountId || process.env.NETSUITE_ACCOUNT_ID;
    const clientId = args.clientId || process.env.NETSUITE_CLIENT_ID;
    if (!accountId || !clientId) {
      return { content: [{ type: 'text', text: 'Missing required credentials...' }],
               isError: true };
    }
    try {
      console.error(`Account ID: ${accountId}`);
      console.error(`Client ID: ${clientId?.substring(0, 8)}...`);
      await this.oauthManager.startAuthFlow({ accountId, clientId });
      this.isAuthenticated = true;
      this.mcpTools.clearCache();
      return { content: [{ type: 'text', text: 'Successfully authenticated...' }] };
    } catch (error) {
      return { content: [{ type: 'text',
                 text: `Authentication failed: ${error.message} ...
                        ${this.oauthManager.callbackServer.port} ...` }],
               isError: true };
    }
  }
]]
    The two property reads of the first lines throw when [args] is
    [undefined] or [null]; [clientId?.substring(0, 8)] throws, inside the
    [try], when [clientId] is not a string. *)
Definition handleAuthentication (w : world) (args : jsval) : M (completion reply) :=
  fun this =>
    match get_prop args "accountId", get_prop args "clientId" with
    | Thrown e, _ | Normal _, Thrown e => (Thrown e, this, [])
    | Normal argAccount, Normal argClient =>
        let accountId := js_or argAccount (NETSUITE_ACCOUNT_ID w) in
        let clientId := js_or argClient (NETSUITE_CLIENT_ID w) in
        if negb (truthy accountId) || negb (truthy clientId) then
          (Normal {| text := MissingCredentials; isError := true |}, this, [])
        else
          match clientId with
          | JStr _ =>
              match startAuthFlow w accountId clientId with
              | Normal _ =>
                  (Normal {| text := AuthenticationSucceeded; isError := false |},
                   {| isAuthenticated := JBool true;
                      mcpTools := clearCache (mcpTools this) |},
                   [StartAuthFlow accountId clientId])
              | Thrown error =>
                  (Normal {| text := AuthenticationFailed (err_message error) (callbackPort w);
                             isError := true |},
                   this, [StartAuthFlow accountId clientId])
              end
          | _ =>
              (Normal {| text := AuthenticationFailed "clientId?.substring is not a function"
                                   (callbackPort w);
                         isError := true |},
               this, [])
          end
    end.

(** [[
  async handleLogout() {
    try {
      await this.oauthManager.clearSession();
      this.mcpTools.clearCache();
      this.isAuthenticated = false;
      return { content: [{ type: 'text', text: 'Successfully logged out...' }] };
    } catch (error) {
      return { content: [{ type: 'text', text: `Logout failed: ${error.message}` }],
               isError: true };
    }
  }
]] *)
Definition handleLogout (w : world) : M (completion reply) :=
  fun this =>
    match clearSession w with
    | Normal _ =>
        (Normal {| text := LoggedOut; isError := false |},
         {| isAuthenticated := JBool false; mcpTools := clearCache (mcpTools this) |},
         [ClearSession])
    | Thrown error =>
        (Normal {| text := LogoutFailed (err_message error); isError := true |},
         this, [ClearSession])
    end.

(** [typeof result === 'string' ? result : JSON.stringify(result, null, 2)];
    [JSON.stringify] of [undefined] is [undefined]. *)
Definition output_text (w : world) (result : jsval) : jsval :=
  match result with
  | JStr _ => result
  | _ => stringify w result
  end.

(** [value === 'name'] *)
Definition is_string (name : string) (value : jsval) : bool :=
  match value with
  | JStr s => String.eqb s name
  | _ => false
  end.

(** The [catch] of the handler of [tools/call]. *)
Definition caught (r : completion reply) : reply :=
  match r with
  | Normal answer => answer
  | Thrown error => {| text := ToolError (err_message error); isError := true |}
  end.

(** The handler of [tools/call], for a request whose [params] hold [name]
    and [arguments]:
[[
    this.server.setRequestHandler(CallToolRequestSchema, async (request) => {
      const { name, arguments: args } = request.params;
      try {
        if (name === 'netsuite_authenticate') {
          return await this.handleAuthentication(args);
        }
        if (name === 'netsuite_logout') {
          return await this.handleLogout();
        }
        this.isAuthenticated = await this.oauthManager.hasValidSession();
        if (!this.isAuthenticated) {
          return { content: [{ type: 'text', text: 'Not authenticated...' }],
                   isError: true };
        }
        const result = await this.mcpTools.executeTool(name, args);
        return { content: [{ type: 'text',
                   text: typeof result === 'string' ? result
                                                    : JSON.stringify(result, null, 2) }] };
      } catch (error) {
        return { content: [{ type: 'text', text: `Error: ${error.message}` }],
                 isError: true };
      }
    });
]] *)
Definition callTool (w : world) (name args : jsval) : M reply :=
  fun this =>
    if is_string "netsuite_authenticate" name then
      let '(r, this', calls) := handleAuthentication w args this in (caught r, this', calls)
    else if is_string "netsuite_logout" name then
      let '(r, this', calls) := handleLogout w this in (caught r, this', calls)
    else
      match hasValidSession w with
      | Thrown error => (caught (Thrown error), this, [HasValidSession])
      | Normal valid =>
          let this1 := with_flag valid this in
          if negb (truthy valid) then
            ({| text := NotAuthenticated; isError := true |}, this1, [HasValidSession])
          else
            (caught (let! result := executeTool (tools_world w) (post_call w) name args in
                     Normal {| text := ToolOutput (output_text w result); isError := false |}),
             this1, [HasValidSession; ExecuteTool name args])
      end.

(** The session check answered, and with a truthy value. *)
Definition session_valid (w : world) : Prop :=
  exists valid, hasValidSession w = Normal valid /\ truthy valid = true.

(** The name is one of the two tools that the server handles itself. *)
Definition is_local (name : jsval) : bool :=
  is_string "netsuite_authenticate" name || is_string "netsuite_logout" name.

(** The reply reports no error. *)
Definition succeeded (r : completion reply) : bool :=
  match r with
  | Normal answer => negb (isError answer)
  | Thrown _ => false
  end.

End McpServer.

(** ** Test data *)

Module TestVectors.

(** RFC 7636, appendix B: the octets of the example verifier. *)
Definition rfc7636_octets : list byte :=
  map (fun n => default x00 (Byte.of_N n))
    [116; 24; 223; 180; 151; 153; 224; 37; 79; 250; 96; 125; 216; 173; 187; 186;
     22; 212; 37; 77; 105; 214; 191; 240; 91; 88; 5; 88; 83; 132; 141; 121]%N.

Definition ascii_bytes (s : string) : list byte :=
  map byte_of_ascii (list_ascii_of_string s).

Definition hex_digit (n : N) : ascii :=
  default "?"%char (String.get (N.to_nat n) "0123456789abcdef").

Fixpoint hex (bs : list byte) : string :=
  match bs with
  | [] => EmptyString
  | b :: rest =>
      String (hex_digit (Byte.to_N b / 16)) (String (hex_digit (Byte.to_N b mod 16)) (hex rest))
  end.

End TestVectors.

(** ** Scenarios on which the properties are exercised *)

Module Scenarios.

#[local] Open Scope Z_scope.

(** A session file that exists and cannot be opened. *)
Definition eacces : js_error :=
  {| err_message := "EACCES: permission denied, open 'sessions/session.json'";
     err_code := Some "EACCES";
     err_response := None |}.

(** A token endpoint that issues [AT1]/[RT1] for one hour, a clock, and an
    engine that turns no string into a number. *)
Definition issued : jsval :=
  JObj (<["access_token" := JStr "AT1"]>
       (<["refresh_token" := JStr "RT1"]>
       (<["expires_in" := JNum 3600]> ∅))).

Definition granting_world : TokenExchange.world :=
  {| TokenExchange.now := 1700000000000;
     TokenExchange.post := fun _ =>
       TokenExchange.Resolved
         {| TokenExchange.status := 200; TokenExchange.data := issued |};
     TokenExchange.coerce := fun _ => JNaN |}.





Definition sandbox : TokenExchange.config :=
  {| TokenExchange.accountId := JStr "123-sb1";
     TokenExchange.clientId := JStr "cid";
     TokenExchange.redirectUri := JStr "http://localhost:8080/callback" |}.

(** A stored token record that expires exactly five minutes after the clock
    of the worlds above. *)
Definition stored_tokens : gmap string jsval :=
  <["access_token" := JStr "AT0"]>
  (<["refresh_token" := JStr "RT0"]>
  (<["expires_in" := JNum 3600]>
  (<["expires_at" := JNum 1700000300000]>
  (<["accountId" := JStr "123-sb1"]>
  (<["clientId" := JStr "cid"]> ∅))))).

(** A redirect with a forged [state], received by a listening server. *)
Definition forged_request : CallbackServer.request :=
  CallbackServer.Url "/callback" [("code", "abc"); ("state", "wrong")].

Definition listening : CallbackServer.callback_server :=
  {| CallbackServer.port := 8080; CallbackServer.server := Some tt |}.

(** A tools client whose cache is exactly five minutes old, and an endpoint
    that cannot be reached. *)
Definition network_error : js_error :=
  {| err_message := "Network Error"; err_code := Some "ERR_NETWORK";
     err_response := None |}.

Definition cached_client : McpTools.tools_client :=
  {| McpTools.toolsCache := JArr [JObj (<["name" := JStr "ns_runReport"]> ∅)];
     McpTools.lastToolsFetch := Some 1700000000000;
     McpTools.toolsCacheTTL := 300000 |}.

Definition unreachable_world : McpTools.world :=
  {| McpTools.now_at_check := 1700000300000;
     McpTools.ensureValidToken := Normal (JStr "AT1");
     McpTools.getAccountId := Normal (JStr "123-sb1");
     McpTools.generateRequestId := "mcp-1700000300000-k3j9x0q2a";
     McpTools.post := fun _ => TokenExchange.Rejected network_error;
     McpTools.now_at_store := 1700000300500;
     McpTools.to_string := fun _ => "[object Object]" |}.

(** The worlds above five minutes and one millisecond later, and a token
    endpoint that grants a token without telling how long it lives. *)
Definition later_world : TokenExchange.world :=
  {| TokenExchange.now := 1700000300001;
     TokenExchange.post := TokenExchange.post granting_world;
     TokenExchange.coerce := TokenExchange.coerce granting_world |}.

Definition undated : jsval :=
  JObj (<["access_token" := JStr "AT1"]> (<["refresh_token" := JStr "RT1"]> ∅)).

Definition undated_world : TokenExchange.world :=
  {| TokenExchange.now := 1700000000000;
     TokenExchange.post := fun _ =>
       TokenExchange.Resolved
         {| TokenExchange.status := 200; TokenExchange.data := undated |};
     TokenExchange.coerce := fun _ => JNaN |}.



(** A tools endpoint that lists one tool, and the same world four minutes
    and six minutes after the list was stored. *)
Definition one_tool : jsval :=
  JArr [JObj (<["name" := JStr "ns_runReport"]> ∅)].

Definition listing_world (checked_at : Z) : McpTools.world :=
  {| McpTools.now_at_check := checked_at;
     McpTools.ensureValidToken := Normal (JStr "AT1");
     McpTools.getAccountId := Normal (JStr "123-sb1");
     McpTools.generateRequestId := "mcp-1700000300000-k3j9x0q2a";
     McpTools.post := fun _ =>
       TokenExchange.Resolved
         {| TokenExchange.status := 200;
            TokenExchange.data :=
              JObj (<["result" := JObj (<["tools" := one_tool]> ∅)]> ∅) |};
     McpTools.now_at_store := 1700000300500;
     McpTools.to_string := fun _ => "[object Object]" |}.

Definition fresh_client : McpTools.tools_client := McpTools.constructor.

(** A client whose list of two tools is an hour old. *)
Definition two_tools : list jsval :=
  [JObj (<["name" := JStr "ns_runReport"]> (<["description" := JStr "Run a report"]> ∅));
   JObj (<["name" := JStr "ns_runCustomSuiteQL"]> ∅)].

Definition hour_old_client : McpTools.tools_client :=
  {| McpTools.toolsCache := JArr two_tools;
     McpTools.lastToolsFetch := Some 1699996700000;
     McpTools.toolsCacheTTL := 300000 |}.

(** A tool endpoint that runs the tool, and one that reports a JSON-RPC
    error. *)
Definition running_endpoint (request : McpTools.call_request) : TokenExchange.axios_outcome :=
  TokenExchange.Resolved
    {| TokenExchange.status := 200;
       TokenExchange.data := JObj (<["result" := McpTools.call_arguments request]> ∅) |}.

Definition failing_endpoint (request : McpTools.call_request) : TokenExchange.axios_outcome :=
  TokenExchange.Resolved
    {| TokenExchange.status := 200;
       TokenExchange.data :=
         JObj (<["error" := JObj (<["message" := JStr "Invalid search id"]> ∅)]> ∅) |}.

(** A tools endpoint that answers 401. *)
Definition unauthorized : js_error :=
  {| err_message := "Request failed with status code 401";
     err_code := Some "ERR_BAD_REQUEST";
     err_response := Some (401, JNull) |}.

(** A storage directory, a file system that works, one whose disk is full
    and one that refuses to remove the file; a session record. *)
Definition sessions_dir : SessionStorage.storage :=
  {| SessionStorage.storagePath := "./sessions";
     SessionStorage.sessionFile := "sessions/session.json" |}.

Definition invalid_data : js_error :=
  {| err_message := "The data argument must be of type string";
     err_code := Some "ERR_INVALID_ARG_TYPE";
     err_response := None |}.

Definition working_fs : SessionStorage.fs_behaviour :=
  {| SessionStorage.mkdir_error := None;
     SessionStorage.writeFile_error := None;
     SessionStorage.readFile_error := None;
     SessionStorage.unlink_error := None;
     SessionStorage.invalid_data_error := invalid_data |}.

Definition enospc : js_error :=
  {| err_message := "ENOSPC: no space left on device, write";
     err_code := Some "ENOSPC";
     err_response := None |}.

Definition full_disk_fs : SessionStorage.fs_behaviour :=
  {| SessionStorage.mkdir_error := None;
     SessionStorage.writeFile_error := Some (enospc, Some (SessionStorage.Garbled "Unexpected end of JSON input"));
     SessionStorage.readFile_error := None;
     SessionStorage.unlink_error := None;
     SessionStorage.invalid_data_error := invalid_data |}.

Definition read_only_fs : SessionStorage.fs_behaviour :=
  {| SessionStorage.mkdir_error := None;
     SessionStorage.writeFile_error := None;
     SessionStorage.readFile_error := None;
     SessionStorage.unlink_error := Some eacces;
     SessionStorage.invalid_data_error := invalid_data |}.

Definition session_record : jsval :=
  JObj (<["authenticated" := JBool true]>
       (<["tokens" := JObj stored_tokens]>
       (<["timestamp" := JNum 1700000000000]> ∅))).

(** A server process with the credentials in its environment, at a given
    answer of the session check and a given reading of the clock; and a
    server that has just been constructed. *)
Definition server_world (valid : jsval) (checked_at : Z) : McpServer.world :=
  {| McpServer.hasValidSession := Normal valid;
     McpServer.startAuthFlow := fun _ _ => Normal tt;
     McpServer.clearSession := Normal tt;
     McpServer.callbackPort := JNum 8080;
     McpServer.NETSUITE_ACCOUNT_ID := JStr "123-sb1";
     McpServer.NETSUITE_CLIENT_ID := JStr "0a1b2c3d4e5f";
     McpServer.tools_world := listing_world checked_at;
     McpServer.post_call := running_endpoint;
     McpServer.stringify := fun value =>
       match value with
       | JUndefined => JUndefined
       | _ => JStr "{}"
       end;
     McpServer.iterate_string := fun _ => [] |}.

Definition new_server : McpServer.server :=
  {| McpServer.isAuthenticated := JBool false; McpServer.mcpTools := fresh_client |}.

End Scenarios.

(* ===================================================================== *)
(** * Part II. Properties                                                 *)
(* ===================================================================== *)

(** ** Base64 and PKCE *)

Section Base64Facts.

Import Base64 Rfc4648.

#[local] Open Scope N_scope.

(** Induction on a buffer three bytes at a time, the way the encoder reads it. *)
Lemma buffer_ind3 (P : list byte -> Prop) :
  P [] ->
  (forall a, P [a]) ->
  (forall a b, P [a; b]) ->
  (forall a b c rest, P rest -> P (a :: b :: c :: rest)) ->
  forall buf, P buf.
Proof.
  intros H0 H1 H2 H3 buf.
  enough (P buf /\ (forall a, P (a :: buf)) /\ (forall a b, P (a :: b :: buf))) by tauto.
  induction buf as [|x buf (IH0 & IH1 & IH2)]; auto.
Qed.

(** *** Bit operations as arithmetic *)

Lemma lor_shiftl_add x y n : y < 2 ^ n -> N.lor (N.shiftl x n) y = x * 2 ^ n + y.
Proof.
  intros Hy.
  rewrite <- N.lxor_lor, <- N.add_nocarry_lxor, N.shiftl_mul_pow2; trivial;
    apply N.bits_inj_0; intros m; rewrite N.land_spec;
    destruct (N.lt_ge_cases m n) as [Hm|Hm].
  - now rewrite N.shiftl_spec_low.
  - rewrite (N.testbit_eqb y m), N.div_small, Bool.andb_false_r; trivial.
    eapply N.lt_le_trans; [exact Hy | now apply N.pow_le_mono_r].
  - now rewrite N.shiftl_spec_low.
  - rewrite (N.testbit_eqb y m), N.div_small, Bool.andb_false_r; trivial.
    eapply N.lt_le_trans; [exact Hy | now apply N.pow_le_mono_r].
Qed.

Lemma byte_lt_256 (b : byte) : Byte.to_N b < 256.
Proof. pose proof (Byte.to_N_bounded b). lia. Qed.

Lemma group3_arith a b c :
  group3 a b c = Byte.to_N a * 65536 + Byte.to_N b * 256 + Byte.to_N c.
Proof.
  unfold group3.
  pose proof (byte_lt_256 a). pose proof (byte_lt_256 b). pose proof (byte_lt_256 c).
  rewrite (lor_shiftl_add (Byte.to_N b) (Byte.to_N c) 8) by (simpl; lia).
  rewrite (lor_shiftl_add (Byte.to_N a) _ 16) by (simpl; lia).
  simpl (2 ^ _). lia.
Qed.

Lemma sextet_arith g :
  sextet g 0 = (g / 262144) mod 64 /\ sextet g 1 = (g / 4096) mod 64
  /\ sextet g 2 = (g / 64) mod 64 /\ sextet g 3 = g mod 64.
Proof.
  unfold sextet. rewrite !(N.land_ones _ 6), !N.shiftr_div_pow2.
  repeat split. change (2 ^ (18 - 6 * 3)) with 1. now rewrite N.div_1_r.
Qed.

Lemma sextet_lt_64 g k : sextet g k < 64.
Proof.
  unfold sextet. rewrite (N.land_ones _ 6). now apply N.mod_lt.
Qed.

Lemma group_of_arith d0 d1 d2 d3 :
  d1 < 64 -> d2 < 64 -> d3 < 64 ->
  group_of d0 d1 d2 d3 = d0 * 262144 + d1 * 4096 + d2 * 64 + d3.
Proof.
  intros H1 H2 H3. unfold group_of.
  rewrite (lor_shiftl_add d2 d3 6) by (simpl; lia).
  rewrite (lor_shiftl_add d1 _ 12) by (simpl; lia).
  rewrite (lor_shiftl_add d0 _ 18) by (simpl; lia).
  simpl (2 ^ _). lia.
Qed.

Lemma byte_at_arith g :
  byte_at g 0 = Byte.of_N ((g / 65536) mod 256)
  /\ byte_at g 1 = Byte.of_N ((g / 256) mod 256)
  /\ byte_at g 2 = Byte.of_N (g mod 256).
Proof.
  unfold byte_at. rewrite !(N.land_ones _ 8), !N.shiftr_div_pow2.
  repeat split. change (2 ^ (16 - 8 * 2)) with 1. now rewrite N.div_1_r.
Qed.

(** *** The two alphabets, digit by digit *)

Lemma below_64 (Q : N -> bool) :
  forallb Q (map N.of_nat (seq 0 64)) = true -> forall i, i < 64 -> Q i = true.
Proof.
  intros HQ i Hi. rewrite forallb_forall in HQ. apply HQ.
  rewrite <- (N2Nat.id i). apply in_map, in_seq. lia.
Qed.

Lemma digits_ok i : i < 64 -> digit_ok i = true.
Proof. apply below_64. vm_compute. reflexivity. Qed.

Lemma digit_value_digit i : i < 64 -> digit_value (digit i) = Some i.
Proof.
  intros Hi. pose proof (digits_ok i Hi) as H. unfold digit_ok in H.
  repeat (apply andb_prop in H as [H _]).
  destruct (digit_value (digit i)); [|discriminate].
  apply N.eqb_eq in H. now subst.
Qed.

Lemma to_url_digit i : i < 64 -> to_url (digit i) = url_digit i.
Proof.
  intros Hi. pose proof (digits_ok i Hi) as H. unfold digit_ok in H.
  repeat (apply andb_prop in H as [H ?]).
  now apply Ascii.eqb_eq.
Qed.

Lemma of_url_digit i : i < 64 -> of_url (url_digit i) = digit i.
Proof.
  intros Hi. pose proof (digits_ok i Hi) as H. unfold digit_ok in H.
  repeat (apply andb_prop in H as [H ?]).
  now apply Ascii.eqb_eq.
Qed.

Lemma digit_not_pad i : i < 64 -> Ascii.eqb (digit i) pad_char = false.
Proof.
  intros Hi. pose proof (digits_ok i Hi) as H. unfold digit_ok in H.
  repeat (apply andb_prop in H as [H ?]).
  now apply Bool.negb_true_iff.
Qed.

Lemma url_digit_plain i :
  i < 64 ->
  url_digit i <> "+"%char /\ url_digit i <> "/"%char /\ url_digit i <> pad_char
  /\ N_of_ascii (url_digit i) < 128.
Proof.
  intros Hi. pose proof (digits_ok i Hi) as H. unfold digit_ok in H.
  repeat (apply andb_prop in H as [H ?]).
  repeat match goal with
  | E : negb _ = true |- _ => apply Bool.negb_true_iff, Ascii.eqb_neq in E
  end.
  repeat split; trivial. now apply N.ltb_lt.
Qed.

(** *** Replacing one character by one character, or by nothing *)

Lemma replace_all_one c d x s :
  replace_all c (String d EmptyString) (String x s)
  = String (if Ascii.eqb x c then d else x) (replace_all c (String d EmptyString) s).
Proof. simpl. now destruct (Ascii.eqb x c). Qed.

Lemma remove_all_keep c x s :
  Ascii.eqb x c = false -> replace_all c EmptyString (String x s) = String x (replace_all c EmptyString s).
Proof. intros H. simpl. now rewrite H. Qed.

Lemma encode_step x s :
  Ascii.eqb (to_url x) pad_char = false ->
  replace_all "=" EmptyString (replace_all "/" "_" (replace_all "+" "-" (String x s)))
  = String (to_url x)
      (replace_all "=" EmptyString (replace_all "/" "_" (replace_all "+" "-" s))).
Proof.
  intros H. rewrite !replace_all_one. now apply remove_all_keep.
Qed.

Lemma decode_step x s :
  replace_all "_" "/" (replace_all "-" "+" (String x s))
  = String (of_url x) (replace_all "_" "/" (replace_all "-" "+" s)).
Proof. now rewrite !replace_all_one. Qed.

Lemma url_digit_step i s :
  i < 64 ->
  replace_all "=" EmptyString (replace_all "/" "_" (replace_all "+" "-" (String (digit i) s)))
  = String (url_digit i)
      (replace_all "=" EmptyString (replace_all "/" "_" (replace_all "+" "-" s))).
Proof.
  intros Hi. rewrite encode_step; rewrite (to_url_digit i Hi); trivial.
  destruct (url_digit_plain i Hi) as (_ & _ & Hp & _).
  now apply Ascii.eqb_neq.
Qed.

(** *** The encoder of the source is the encoder of the specification *)

Lemma base64URLEncode_is_base64url buf :
  Pkce.base64URLEncode buf = base64url_nopad buf.
Proof.
  unfold Pkce.base64URLEncode.
  induction buf as [|a|a b|a b c rest IH] using buffer_ind3.
  - reflexivity.
  - cbn [to_base64 base64url_nopad].
    now rewrite !url_digit_step by apply sextet_lt_64.
  - cbn [to_base64 base64url_nopad].
    now rewrite !url_digit_step by apply sextet_lt_64.
  - cbn [to_base64 base64url_nopad].
    rewrite !url_digit_step by apply sextet_lt_64.
    now rewrite IH.
Qed.

Lemma base64url_nopad_length buf :
  String.length (base64url_nopad buf) = ((4 * length buf + 2) / 3)%nat.
Proof.
  induction buf as [|a|a b|a b c rest IH] using buffer_ind3; try reflexivity.
  cbn [base64url_nopad String.length length]. rewrite IH.
  replace (4 * S (S (S (length rest))) + 2)%nat
    with ((4 * length rest + 2) + 4 * 3)%nat by lia.
  rewrite Nat.div_add by discriminate. lia.
Qed.

Lemma base64url_nopad_chars buf c :
  In c (list_ascii_of_string (base64url_nopad buf)) -> exists i, i < 64 /\ c = url_digit i.
Proof.
  induction buf as [|a|a b|a b x rest IH] using buffer_ind3;
    cbn [base64url_nopad list_ascii_of_string In]; intros H;
    repeat (destruct H as [H|H]; [eexists; split; [eapply sextet_lt_64 | now rewrite H] |]);
    try contradiction.
  now apply IH.
Qed.

(** *** Decoding what was encoded *)

Ltac euclid := zify; Z.to_euclidean_division_equations; lia.

Lemma regroup g :
  g < 16777216 ->
  (g / 262144) mod 64 * 262144 + (g / 4096) mod 64 * 4096 + (g / 64) mod 64 * 64 + g mod 64 = g.
Proof. intros. euclid. Qed.

Lemma regroup_two_bytes g :
  g < 16777216 -> g mod 256 = 0 ->
  (g / 262144) mod 64 * 262144 + (g / 4096) mod 64 * 4096 + (g / 64) mod 64 * 64 + 0 = g.
Proof. intros. euclid. Qed.

Lemma regroup_one_byte g :
  g < 16777216 -> g mod 65536 = 0 ->
  (g / 262144) mod 64 * 262144 + (g / 4096) mod 64 * 4096 + 0 * 64 + 0 = g.
Proof. intros. euclid. Qed.

Lemma group3_split a b c :
  let g := group3 a b c in
  g < 16777216
  /\ (g / 65536) mod 256 = Byte.to_N a
  /\ (g / 256) mod 256 = Byte.to_N b
  /\ g mod 256 = Byte.to_N c
  /\ (Byte.to_N c = 0 -> g mod 256 = 0)
  /\ (Byte.to_N b = 0 -> Byte.to_N c = 0 -> g mod 65536 = 0).
Proof.
  cbv zeta. rewrite group3_arith.
  pose proof (byte_lt_256 a). pose proof (byte_lt_256 b). pose proof (byte_lt_256 c).
  generalize dependent (Byte.to_N a). generalize dependent (Byte.to_N b).
  generalize dependent (Byte.to_N c). intros.
  repeat split; try intros; euclid.
Qed.

Lemma of_N_byte n b : n = Byte.to_N b -> Byte.of_N n = Some b.
Proof. intros ->. apply Byte.of_to_N. Qed.

Lemma group_of_sextets g :
  g < 16777216 ->
  group_of (sextet g 0) (sextet g 1) (sextet g 2) (sextet g 3) = g
  /\ (g mod 256 = 0 -> group_of (sextet g 0) (sextet g 1) (sextet g 2) 0 = g)
  /\ (g mod 65536 = 0 -> group_of (sextet g 0) (sextet g 1) 0 0 = g).
Proof.
  intros Hg. destruct (sextet_arith g) as (-> & -> & -> & ->).
  rewrite !group_of_arith by (try apply N.mod_lt; lia).
  auto using regroup, regroup_two_bytes, regroup_one_byte.
Qed.

Lemma bytes_of_group a b c :
  let g := group3 a b c in
  let g' := group_of (sextet g 0) (sextet g 1) (sextet g 2) (sextet g 3) in
  byte_at g' 0 = Some a /\ byte_at g' 1 = Some b /\ byte_at g' 2 = Some c.
Proof.
  cbv zeta. destruct (group3_split a b c) as (Hg & Ha & Hb & Hc & _).
  destruct (group_of_sextets _ Hg) as (-> & _).
  destruct (byte_at_arith (group3 a b c)) as (-> & -> & ->).
  auto using of_N_byte.
Qed.

Lemma bytes_of_group2 a b :
  let g := group3 a b x00 in
  let g' := group_of (sextet g 0) (sextet g 1) (sextet g 2) 0 in
  byte_at g' 0 = Some a /\ byte_at g' 1 = Some b.
Proof.
  cbv zeta. destruct (group3_split a b x00) as (Hg & Ha & Hb & _ & H0 & _).
  destruct (group_of_sextets _ Hg) as (_ & E & _). rewrite E by now apply H0.
  destruct (byte_at_arith (group3 a b x00)) as (-> & -> & _).
  auto using of_N_byte.
Qed.

Lemma bytes_of_group1 a :
  let g := group3 a x00 x00 in
  byte_at (group_of (sextet g 0) (sextet g 1) 0 0) 0 = Some a.
Proof.
  cbv zeta. destruct (group3_split a x00 x00) as (Hg & Ha & _ & _ & _ & H0).
  destruct (group_of_sextets _ Hg) as (_ & _ & E). rewrite E by now apply H0.
  destruct (byte_at_arith (group3 a x00 x00)) as (-> & _).
  auto using of_N_byte.
Qed.

Lemma restore_padding_step c0 c1 c2 c3 s :
  restore_padding (String c0 (String c1 (String c2 (String c3 s))))
  = String c0 (String c1 (String c2 (String c3 (restore_padding s)))).
Proof.
  unfold restore_padding. cbn [String.length].
  replace (S (S (S (S (String.length s))))) with (String.length s + 1 * 4)%nat by lia.
  now rewrite Nat.Div0.mod_add.
Qed.

Lemma from_base64_step d0 d1 d2 d3 s :
  d0 < 64 -> d1 < 64 -> d2 < 64 -> d3 < 64 ->
  from_base64 (String (digit d0) (String (digit d1) (String (digit d2) (String (digit d3) s))))
  = (b0 ← byte_at (group_of d0 d1 d2 d3) 0;
     b1 ← byte_at (group_of d0 d1 d2 d3) 1;
     b2 ← byte_at (group_of d0 d1 d2 d3) 2;
     tail ← from_base64 s;
     Some (b0 :: b1 :: b2 :: tail)).
Proof.
  intros H0 H1 H2 H3. cbn [from_base64].
  rewrite !digit_value_digit, digit_not_pad by trivial.
  reflexivity.
Qed.

Lemma restore_padding_short c0 c1 c2 :
  restore_padding (String c0 (String c1 EmptyString)) = String c0 (String c1 "==")
  /\ restore_padding (String c0 (String c1 (String c2 EmptyString)))
     = String c0 (String c1 (String c2 "=")).
Proof. split; reflexivity. Qed.

Lemma base64url_decode_nopad buf :
  base64url_decode (base64url_nopad buf) = Some buf.
Proof.
  unfold base64url_decode.
  induction buf as [|a|a b|a b c rest IH] using buffer_ind3.
  - reflexivity.
  - cbn [base64url_nopad]. rewrite !decode_step.
    rewrite !of_url_digit by apply sextet_lt_64.
    cbn [replace_all].
    rewrite (proj1 (restore_padding_short _ _ pad_char)).
    cbn [from_base64].
    rewrite !digit_value_digit by apply sextet_lt_64.
    cbn. now rewrite bytes_of_group1.
  - cbn [base64url_nopad]. rewrite !decode_step.
    rewrite !of_url_digit by apply sextet_lt_64.
    cbn [replace_all].
    rewrite (proj2 (restore_padding_short _ _ _)).
    cbn [from_base64].
    rewrite !digit_value_digit, digit_not_pad by apply sextet_lt_64.
    destruct (bytes_of_group2 a b) as [E0 E1]. cbv zeta in E0, E1.
    cbn. rewrite E0. cbn. now rewrite E1.
  - cbn [base64url_nopad]. rewrite !decode_step.
    rewrite !of_url_digit by apply sextet_lt_64.
    rewrite restore_padding_step, from_base64_step by apply sextet_lt_64.
    destruct (bytes_of_group a b c) as (E0 & E1 & E2). cbv zeta in E0, E1, E2.
    rewrite E0, E1, E2, IH. reflexivity.
Qed.

Lemma base64url_nopad_plain buf c :
  In c (list_ascii_of_string (base64url_nopad buf)) ->
  c <> "+"%char /\ c <> "/"%char /\ c <> "="%char /\ N_of_ascii c < 128.
Proof.
  intros H. apply base64url_nopad_chars in H as (i & Hi & ->).
  now apply url_digit_plain.
Qed.

End Base64Facts.

Section PkceFacts.

Import Base64 Rfc4648 Pkce.

(** The model of SHA-256 on the test vectors of FIPS 180-4: the empty
    message, one block, two blocks. *)
Example sha256_vectors :
  TestVectors.hex (Sha256.sha256 (TestVectors.ascii_bytes EmptyString))
  = "e3b0c44298fc1c149afbf4c8996fb92427ae41e4649b934ca495991b7852b855"
  /\ TestVectors.hex (Sha256.sha256 (TestVectors.ascii_bytes "abc"))
     = "ba7816bf8f01cfea414140de5dae2223b00361a396177a9cb410ff61f20015ad"
  /\ TestVectors.hex (Sha256.sha256 (TestVectors.ascii_bytes
       "abcdbcdecdefdefgefghfghighijhijkijkljklmklmnlmnomnopnopq"))
     = "248d6a61d20638b8e5c026930c3e6039a33ce45964ff2167f6ecedd419db06c1".
Proof. vm_compute. repeat split. Qed.

(** [generatePKCE] on the octets of RFC 7636, appendix B, gives the verifier
    and the challenge printed there. *)
Example generatePKCE_rfc7636 :
  generatePKCE (fun _ => TestVectors.rfc7636_octets)
  = {| code_verifier := "dBjftJeZ4CVP-mB92K27uhbUJU1p1r_wW1gFWFOEjXk";
       code_challenge := "E9Melhoa2OwvFrEMTJguCHaoeK1t8URWbuGJSstw-cM";
       code_challenge_method := "S256" |}.
Proof. vm_compute. reflexivity. Qed.

(** C2.  Every pair returned by [generatePKCE]: the verifier is the URL-safe
    base64 encoding, without padding, of the 32 random bytes (43 characters,
    all ASCII); the challenge is the URL-safe base64 encoding, without
    padding, of the SHA-256 digest of the verifier read as an ASCII string;
    the method is ["S256"]; and neither the verifier nor the challenge
    contains ['+'], ['/'] or ['=']. *)
Theorem generatePKCE_contract (randomBytes : nat -> list byte) :
  length (randomBytes 32%nat) = 32%nat ->
  let pair := generatePKCE randomBytes in
  code_verifier pair = base64url_nopad (randomBytes 32%nat)
  /\ String.length (code_verifier pair) = 43%nat
  /\ (forall c, In c (list_ascii_of_string (code_verifier pair)) -> (N_of_ascii c < 128)%N)
  /\ code_challenge pair = base64url_nopad (Sha256.sha256 (utf8 (code_verifier pair)))
  /\ code_challenge_method pair = "S256"
  /\ (forall c,
        In c (list_ascii_of_string (code_verifier pair))
        \/ In c (list_ascii_of_string (code_challenge pair)) ->
        c <> "+"%char /\ c <> "/"%char /\ c <> "="%char).
Proof.
  intros Hlen pair. subst pair. unfold generatePKCE.
  cbn [code_verifier code_challenge code_challenge_method].
  rewrite !base64URLEncode_is_base64url.
  repeat split; trivial.
  - now rewrite base64url_nopad_length, Hlen.
  - intros c Hc. now apply base64url_nopad_plain in Hc.
  - destruct H as [H|H]; now apply base64url_nopad_plain in H.
  - destruct H as [H|H]; now apply base64url_nopad_plain in H.
  - destruct H as [H|H]; now apply base64url_nopad_plain in H.
Qed.

Lemma generatePKCE_contract_witness :
  let pair := generatePKCE (fun _ => TestVectors.rfc7636_octets) in
  code_verifier pair = base64url_nopad TestVectors.rfc7636_octets
  /\ String.length (code_verifier pair) = 43%nat
  /\ (forall c, In c (list_ascii_of_string (code_verifier pair)) -> (N_of_ascii c < 128)%N)
  /\ code_challenge pair = base64url_nopad (Sha256.sha256 (utf8 (code_verifier pair)))
  /\ code_challenge_method pair = "S256"
  /\ (forall c,
        In c (list_ascii_of_string (code_verifier pair))
        \/ In c (list_ascii_of_string (code_challenge pair)) ->
        c <> "+"%char /\ c <> "/"%char /\ c <> "="%char).
Proof.
  apply (generatePKCE_contract (fun _ => TestVectors.rfc7636_octets)).
  reflexivity.
Defined.

(** C9.  Decoding the output of [base64URLEncode] as URL-safe base64 (['-']
    back to ['+'], ['_'] back to ['/'], padding restored) gives the buffer
    back; so the encoding is injective, and the random bytes of a PKCE
    verifier are recovered from the verifier string. *)
Theorem base64URLEncode_roundtrip :
  (forall buf, base64url_decode (base64URLEncode buf) = Some buf)
  /\ (forall buf1 buf2, base64URLEncode buf1 = base64URLEncode buf2 -> buf1 = buf2)
  /\ (forall randomBytes,
        base64url_decode (code_verifier (generatePKCE randomBytes))
        = Some (randomBytes 32%nat)).
Proof.
  assert (R : forall buf, base64url_decode (base64URLEncode buf) = Some buf).
  { intros buf. rewrite base64URLEncode_is_base64url. apply base64url_decode_nopad. }
  split; [exact R | split].
  - intros buf1 buf2 E. apply (f_equal base64url_decode) in E.
    rewrite !R in E. now injection E.
  - intros randomBytes. apply R.
Qed.

Lemma base64URLEncode_roundtrip_witness :
  base64url_decode "dBjftJeZ4CVP-mB92K27uhbUJU1p1r_wW1gFWFOEjXk"
  = Some TestVectors.rfc7636_octets.
Proof.
  exact (proj1 base64URLEncode_roundtrip TestVectors.rfc7636_octets).
Defined.

End PkceFacts.

(** ** The session store *)

Section SessionStorageFacts.

Import SessionStorage Scenarios.

Lemma truthy_js_and a b : truthy (js_and a b) = truthy a && truthy b.
Proof. unfold js_and. destruct (truthy a) eqn:E; [reflexivity | exact E]. Qed.

Lemma get_truthy_object o k : truthy (get o k) = true -> exists props, o = JObj props.
Proof. destruct o; try discriminate. eauto. Qed.

(** The verdict of [isAuthenticated] on a value that was loaded. *)
Lemma isAuthenticated_loaded file session :
  load file = Normal session ->
  isAuthenticated file
  = Normal (truthy (get session "authenticated") && truthy (get session "tokens")).
Proof.
  intros H. unfold isAuthenticated. rewrite H. cbn [bind try_catch].
  rewrite !truthy_js_and.
  destruct (truthy (get session "authenticated")) eqn:E.
  - apply get_truthy_object in E as [props ->]. reflexivity.
  - now rewrite Bool.andb_false_r.
Qed.

(** C7, as stated, fails: a session file whose text is the JSON literal
    [null] exists and is decoded without any failure, and [load] returns
    [null] for it. *)
Lemma load_null_literal :
  load (Decodes JNull) = Normal JNull /\ ~ file_missing (Decodes JNull).
Proof.
  split; [reflexivity|]. intros (error & H & _). discriminate.
Qed.

(** C7, amended.  [load] returns [null], not an error, when the session
    file does not exist (ENOENT), and otherwise only when the text of the
    file is the JSON literal [null]; ENOENT is the only failure turned into
    [null]: every other read failure, and every JSON decoding failure, is
    raised to the caller as it is. *)
Theorem load_absent_or_raised :
  (forall file, load file = Normal JNull <-> file_missing file \/ file = Decodes JNull)
  /\ (forall error,
        err_code error <> Some "ENOENT" -> load (ReadFails error) = Thrown error)
  /\ (forall message, load (ParseFails message) = Thrown (Error message)).
Proof.
  repeat split.
  - destruct file as [error|message|value]; unfold load; cbn [read_and_parse try_catch].
    + case_decide; [|discriminate]. intros _. left. now exists error.
    + cbn. discriminate.
    + intros [= ->]. now right.
  - intros [(error & -> & Hcode)| ->]; [|reflexivity].
    unfold load. cbn [read_and_parse try_catch]. now case_decide.
  - intros Hcode. unfold load. cbn [read_and_parse try_catch]. now case_decide.
Qed.

Lemma load_absent_or_raised_witness :
  load (ReadFails eacces) = Thrown eacces.
Proof.
  apply (proj1 (proj2 load_absent_or_raised)). discriminate.
Defined.

(** C6, as stated, fails: a session whose [tokens] object holds no access
    token is reported authenticated. *)
Lemma isAuthenticated_without_access_token :
  let file :=
    Decodes (JObj (<["authenticated" := JBool true]> (<["tokens" := JObj ∅]> ∅))) in
  isAuthenticated file = Normal true
  /\ ~ (exists session,
          load file = Normal session
          /\ get session "authenticated" = JBool true
          /\ has_access_token session).
Proof.
  split; [vm_compute; reflexivity|].
  intros (session & Hload & _ & token & Htoken & _).
  injection Hload as <-. vm_compute in Htoken. discriminate.
Qed.

(** C6, amended.  [isAuthenticated] returns true if and only if a session
    record loads successfully and both its [authenticated] field and its
    [tokens] field are truthy; it looks neither into [tokens] (a record with
    an access token and [authenticated: true] is a special case) nor at the
    expiry timestamp, which may be changed at will without changing the
    verdict. *)
Theorem isAuthenticated_verdict :
  (forall file,
     isAuthenticated file = Normal true
     <-> exists session,
           load file = Normal session
           /\ truthy (get session "authenticated") = true
           /\ truthy (get session "tokens") = true)
  /\ (forall file session,
        load file = Normal session ->
        get session "authenticated" = JBool true ->
        has_access_token session ->
        isAuthenticated file = Normal true)
  /\ (forall (record tokens : gmap string jsval) (expires_at : jsval),
        isAuthenticated
          (Decodes (JObj (<["tokens" := JObj (<["expires_at" := expires_at]> tokens)]> record)))
        = isAuthenticated (Decodes (JObj (<["tokens" := JObj tokens]> record)))).
Proof.
  repeat split.
  - intros H. destruct (load file) as [session|error] eqn:Hload.
    + rewrite (isAuthenticated_loaded _ _ Hload) in H.
      injection H as H. apply andb_prop in H as [H1 H2]. eauto.
    + unfold isAuthenticated in H. rewrite Hload in H. discriminate.
  - intros (session & Hload & H1 & H2).
    now rewrite (isAuthenticated_loaded _ _ Hload), H1, H2.
  - intros file session Hload Hauth (token & Htoken & _).
    rewrite (isAuthenticated_loaded _ _ Hload), Hauth.
    destruct (get session "tokens"); try discriminate. reflexivity.
  - intros record tokens expires_at.
    rewrite !(isAuthenticated_loaded (Decodes _) _ eq_refl).
    cbn [get]. rewrite !lookup_insert. repeat case_decide; reflexivity.
Qed.

Lemma isAuthenticated_verdict_witness :
  isAuthenticated
    (Decodes (JObj (<["authenticated" := JBool true]>
                   (<["tokens" := JObj (<["access_token" := JStr "AT1"]> ∅)]> ∅))))
  = Normal true.
Proof.
  eapply (proj1 (proj2 isAuthenticated_verdict)).
  - reflexivity.
  - vm_compute. reflexivity.
  - exists "AT1". split; [vm_compute; reflexivity | discriminate].
Defined.

(** C10.  [isAuthenticated] never raises: in every state of the storage it
    returns a boolean, and that boolean is [false] whenever reading the file
    fails, for whatever reason, or the file is not valid JSON. *)
Theorem isAuthenticated_never_raises :
  (forall file, exists verdict, isAuthenticated file = Normal verdict)
  /\ (forall error, isAuthenticated (ReadFails error) = Normal false)
  /\ (forall message, isAuthenticated (ParseFails message) = Normal false).
Proof.
  assert (R : forall error, isAuthenticated (ReadFails error) = Normal false).
  { intros error. unfold isAuthenticated, load. cbn [read_and_parse try_catch].
    case_decide; reflexivity. }
  repeat split; trivial.
  destruct file as [error|message|value].
  - rewrite R. eauto.
  - eexists. reflexivity.
  - rewrite (isAuthenticated_loaded (Decodes value) value eq_refl). eauto.
Qed.

End SessionStorageFacts.

(** ** The token service *)

Section TokenExchangeFacts.

Import TokenExchange Scenarios.

#[local] Open Scope Z_scope.

Lemma get_prop_defined o k :
  o <> JNull -> o <> JUndefined -> get_prop o k = Normal (get o k).
Proof. destruct o; intros; congruence || reflexivity. Qed.

(** C3.  For a token record with an [expires_at] timestamp and a current
    time [now], [shouldRefreshToken] returns true if and only if
    [expires_at - now] is strictly below five minutes (300000 ms); when the
    difference is exactly five minutes it returns false. *)
Theorem shouldRefreshToken_threshold (w : world) (tokens : gmap string jsval)
  (expires_at : Z) :
  tokens !! "expires_at" = Some (JNum expires_at) ->
  (shouldRefreshToken w tokens = true <-> expires_at - now w < 300000)
  /\ (expires_at - now w = 300000 -> shouldRefreshToken w tokens = false).
Proof.
  intros H. unfold shouldRefreshToken. cbn [get]. rewrite H.
  cbn [default from_option id]. unfold sub, arith. cbn [to_number lt_num].
  change (5 * 60 * 1000) with 300000.
  split.
  - apply Z.ltb_lt.
  - intros E. rewrite E. apply Z.ltb_irrefl.
Qed.

Lemma shouldRefreshToken_threshold_witness :
  (shouldRefreshToken granting_world stored_tokens = true
   <-> 1700000300000 - 1700000000000 < 300000)
  /\ (1700000300000 - 1700000000000 = 300000 ->
      shouldRefreshToken granting_world stored_tokens = false).
Proof.
  apply (shouldRefreshToken_threshold granting_world stored_tokens 1700000300000).
  vm_compute. reflexivity.
Defined.




(** C5.  A successful [refreshAccessToken] returns a record whose
    [refresh_token] is the one newly issued by the provider when the
    response holds one, and the refresh token of the input record otherwise;
    every field other than [access_token], [refresh_token], [expires_in]
    and [expires_at], in particular [accountId] and [clientId], is that of
    the input record. *)
Theorem refreshAccessToken_frame (w : world) (tokens : gmap string jsval)
  (response : axios_response) :
  post w (refresh_request tokens) = Resolved response ->
  data response <> JNull -> data response <> JUndefined ->
  exists newTokens,
    refreshAccessToken w tokens = Normal (JObj newTokens)
    /\ get (JObj newTokens) "refresh_token"
       = (if truthy (get (data response) "refresh_token")
          then get (data response) "refresh_token"
          else get (JObj tokens) "refresh_token")
    /\ (forall token,
          get (data response) "refresh_token" = JStr token -> token <> EmptyString ->
          get (JObj newTokens) "refresh_token" = JStr token)
    /\ (get (data response) "refresh_token" = JUndefined ->
        get (JObj newTokens) "refresh_token" = get (JObj tokens) "refresh_token")
    /\ (forall k,
          k <> "access_token" -> k <> "refresh_token" ->
          k <> "expires_in" -> k <> "expires_at" ->
          newTokens !! k = tokens !! k)
    /\ newTokens !! "accountId" = tokens !! "accountId"
    /\ newTokens !! "clientId" = tokens !! "clientId".
Proof.
  intros Hpost Hnull Hundef.
  unfold refreshAccessToken. rewrite Hpost. cbn [await bind].
  rewrite !get_prop_defined by assumption. cbn [bind try_catch].
  eexists. split; [reflexivity|].
  assert (R : forall v (m : gmap string jsval),
            get (JObj (<["expires_at" := v]> (<["expires_in" := get (data response) "expires_in"]>
              (<["refresh_token" := js_or (get (data response) "refresh_token")
                                          (get (JObj tokens) "refresh_token")]> m))))
              "refresh_token"
            = js_or (get (data response) "refresh_token") (get (JObj tokens) "refresh_token")).
  { intros v m. cbn [get]. now simplify_map_eq. }
  repeat split.
  - rewrite R. reflexivity.
  - intros token Ht Hne. rewrite R, Ht. unfold js_or. cbn [truthy].
    apply String.eqb_neq in Hne. now rewrite Hne.
  - intros Hu. rewrite R, Hu. reflexivity.
  - intros k H1 H2 H3 H4. now rewrite !lookup_insert_ne by congruence.
  - now simplify_map_eq.
  - now simplify_map_eq.
Qed.

Lemma refreshAccessToken_frame_witness :
  exists newTokens,
    refreshAccessToken granting_world stored_tokens = Normal (JObj newTokens)
    /\ get (JObj newTokens) "refresh_token" = JStr "RT1"
    /\ newTokens !! "accountId" = Some (JStr "123-sb1").
Proof.
  destruct (refreshAccessToken_frame granting_world stored_tokens
              {| status := 200; data := issued |})
    as (newTokens & E & _ & Hnew & _ & _ & Hacc & _);
    [reflexivity | discriminate | discriminate |].
  exists newTokens. split; [exact E|]. split.
  - apply Hnew; [vm_compute; reflexivity | discriminate].
  - rewrite Hacc. vm_compute. reflexivity.
Defined.

End TokenExchangeFacts.

(** ** The callback listener *)

Section CallbackServerFacts.

Import CallbackServer Scenarios.

Lemma state_differs_spec state expectedState :
  state <> Some expectedState -> state_differs state expectedState = true.
Proof.
  destruct state as [s|]; [|reflexivity]. intros H. cbn.
  apply Bool.negb_true_iff, String.eqb_neq. congruence.
Qed.

Lemma close_closes {E} (this : @callback_server) :
  @close E this
  = (Normal tt, {| port := port this; server := None |},
     match server this with Some _ => [Now ServerClose] | None => [] end).
Proof. unfold close. destruct this as [p [[]|]]; reflexivity. Qed.

(** A failure page, then the server is closed, then the flow future is
    rejected. *)
Lemma failure_sequence {E} title message error (this : callback_server) :
  seq_ (sendErrorPage title message)
    (fun _ => seq_ close (fun _ => @authPromiseReject E error)) this
  = (Normal tt, {| port := port this; server := None |},
     [Now (WriteHead (if includes "Invalid" title then 400 else 500)%Z);
      Now (End_ (ErrorPage title message))]
     ++ (match server this with Some _ => [Now ServerClose] | None => [] end)
     ++ [Now (AuthPromiseReject error)]).
Proof.
  unfold seq_, sendErrorPage, seq_, emit, authPromiseReject. rewrite close_closes.
  cbn. reflexivity.
Qed.

Lemma no_handler_in_failure {E} (a b : event E) (mid : list (event E)) (c : event E) :
  invokes_handler a = false -> invokes_handler b = false ->
  forallb (fun ev => negb (invokes_handler ev)) mid = true ->
  invokes_handler c = false ->
  existsb invokes_handler ([a; b] ++ mid ++ [c]) = false.
Proof.
  intros Ha Hb Hmid Hc. rewrite !existsb_app. cbn. rewrite Ha, Hb, Hc. cbn.
  rewrite Bool.orb_false_r. induction mid as [|x mid IH]; [reflexivity|].
  cbn in *. apply andb_prop in Hmid as [Hx Hmid].
  apply Bool.negb_true_iff in Hx. rewrite Hx. auto.
Qed.

(** C1.  A callback request whose [state] parameter is not the
    [expectedState] given to [start] never reaches the code handler: the
    trace of [handleRequest] holds no call of [onCodeReceived] (so none of
    the handler's effects: no token exchange request, no session write) and
    is the same whatever the handler is; on the callback path the handler
    renders a failure page, closes the server and rejects the flow future. *)
Theorem handleRequest_state_mismatch {E : Type} (this : callback_server)
  (pathname : string) (searchParams : list (string * string))
  (expectedState : string)
  (onCodeReceived : option string -> list E * completion unit) :
  searchParams_get "state" searchParams <> Some expectedState ->
  let run := handleRequest (Url pathname searchParams) expectedState onCodeReceived this in
  existsb invokes_handler run.2 = false
  /\ (forall onCodeReceived',
        handleRequest (Url pathname searchParams) expectedState onCodeReceived' this = run)
  /\ (pathname = "/callback" ->
      exists status title message error,
        run = (Normal tt, {| port := port this; server := None |},
               [Now (WriteHead status); Now (End_ (ErrorPage title message))]
               ++ (match server this with Some _ => [Now ServerClose] | None => [] end)
               ++ [Now (AuthPromiseReject error)])
        /\ (param_truthy (searchParams_get "error" searchParams) = false ->
            status = 400%Z /\ title = "Invalid State"
            /\ error = Error "Invalid state parameter")).
Proof.
  intros Hstate run. subst run. unfold handleRequest.
  rewrite (state_differs_spec _ _ Hstate).
  destruct (String.eqb pathname "/callback") eqn:Hpath; cbn [negb].
  - destruct (param_truthy (searchParams_get "error" searchParams)) eqn:Herr;
      rewrite failure_sequence.
    + repeat split.
      * apply no_handler_in_failure; trivial. now destruct (server this).
      * intros _. do 4 eexists. split; [reflexivity | discriminate].
    + repeat split.
      * apply no_handler_in_failure; trivial. now destruct (server this).
      * intros _. do 4 eexists. split; [reflexivity | intros _; now repeat split].
  - repeat split. intros ->. discriminate.
Qed.

Lemma handleRequest_state_mismatch_witness :
  existsb invokes_handler
    (handleRequest forged_request "generated" (fun _ => ([tt], Normal tt)) listening).2
  = false
  /\ exists status title message error,
       handleRequest forged_request "generated" (fun _ => ([tt], Normal tt)) listening
       = (Normal tt, {| port := 8080; server := None |},
          [Now (WriteHead status); Now (End_ (ErrorPage title message));
           Now ServerClose; Now (AuthPromiseReject error)])
       /\ (param_truthy None = false ->
           status = 400%Z /\ title = "Invalid State"
           /\ error = Error "Invalid state parameter").
Proof.
  destruct (handleRequest_state_mismatch listening "/callback"
              [("code", "abc"); ("state", "wrong")] "generated"
              (fun _ => ([tt], Normal tt)))
    as (Hnone & _ & Hpage); [discriminate|].
  split; [exact Hnone | exact (Hpage eq_refl)].
Defined.

End CallbackServerFacts.

(** ** The cache of remote tools *)

Section McpToolsFacts.

Import TokenExchange McpTools Scenarios.

#[local] Open Scope Z_scope.

Lemma cache_valid_fresh w this :
  cache_valid w this = true ->
  exists fetched,
    lastToolsFetch this = Some fetched
    /\ now_at_check w - fetched < toolsCacheTTL this.
Proof.
  unfold cache_valid. intros H. apply andb_prop in H as [_ H].
  destruct (lastToolsFetch this) as [fetched|]; [|discriminate].
  apply andb_prop in H as [_ H]. apply Z.ltb_lt in H. eauto.
Qed.

(** What the [try] statement can do to the instance. *)
Lemma list_tools_outcome w this request :
  (exists error, list_tools w this request = (Thrown error, this))
  \/ list_tools w this request = (Normal (JArr []), this)
  \/ (exists response,
        post w request = Resolved response
        /\ list_tools w this request
           = (Normal (get (get (data response) "result") "tools"),
              {| toolsCache := get (get (data response) "result") "tools";
                 lastToolsFetch := Some (now_at_store w);
                 toolsCacheTTL := toolsCacheTTL this |})).
Proof.
  unfold list_tools, list_body.
  destruct (post w request) as [response|error] eqn:Hpost; cbn [await bind]; [|eauto].
  destruct (get_prop (data response) "error") as [err|e]; cbn [bind]; [|eauto].
  destruct (truthy err); [eauto|].
  destruct (truthy (js_and _ _)); eauto.
Qed.

Lemma list_tools_fails w this request :
  listing_fails (post w request) ->
  exists error, list_tools w this request = (Thrown error, this).
Proof.
  unfold listing_fails, list_tools, list_body.
  destruct (post w request) as [response|error]; cbn [await bind]; [|eauto].
  destruct (data response) eqn:Hdata; cbn [get_prop bind];
    intros [H|[H|H]]; try discriminate; eauto;
    try (rewrite H; eauto).
Qed.

(** The TTL is five minutes from the construction of the instance on:
    [fetchTools] never changes it. *)
Lemma toolsCacheTTL_invariant w this :
  toolsCacheTTL constructor = 300000
  /\ toolsCacheTTL (fetchTools w this).1.2 = toolsCacheTTL this.
Proof.
  split; [reflexivity|]. unfold fetchTools.
  destruct (cache_valid w this); [reflexivity|].
  destruct (ensureValidToken w) as [accessToken|]; [|reflexivity].
  destruct (getMCPEndpoint w) as [endpoint_|]; [|reflexivity].
  destruct (list_tools_outcome w this (list_request w accessToken endpoint_))
    as [[error ->]|[->|(response & _ & ->)]]; reflexivity.
Qed.

(** C8.  [fetchTools] never serves a cached list that is five minutes old
    or older: it answers from the cache, calling nobody, only when the entry
    is younger than the TTL, and with an entry of that age or more it goes
    to the OAuth manager and the remote endpoint, so that what it returns is
    the list just received (which it stores with a new timestamp) or the
    empty list.  Whenever the call raises an error, and in particular
    whenever the remote listing fails, the cached entry and its timestamp
    are exactly what they were. *)
Theorem fetchTools_cache_invariant (w : world) (this : tools_client) :
  toolsCacheTTL this = 300000 ->
  let run := fetchTools w this in
  (run.2 = [] ->
   exists fetched,
     lastToolsFetch this = Some fetched
     /\ now_at_check w - fetched < 300000
     /\ run = (Normal (toolsCache this), this, []))
  /\ (forall fetched,
        lastToolsFetch this = Some fetched ->
        300000 <= now_at_check w - fetched ->
        (exists rest, run.2 = EnsureValidToken :: rest)
        /\ forall tools,
             run.1.1 = Normal tools ->
             (tools = JArr [] /\ run.1.2 = this)
             \/ (exists request response,
                   In (Post request) run.2
                   /\ post w request = Resolved response
                   /\ tools = get (get (data response) "result") "tools"
                   /\ toolsCache run.1.2 = tools
                   /\ lastToolsFetch run.1.2 = Some (now_at_store w)))
  /\ (forall error, run.1.1 = Thrown error -> run.1.2 = this)
  /\ (forall request,
        In (Post request) run.2 ->
        listing_fails (post w request) ->
        exists error, run.1.1 = Thrown error /\ run.1.2 = this).
Proof.
  intros Httl run. subst run. unfold fetchTools.
  destruct (cache_valid w this) eqn:Hvalid.
  - destruct (cache_valid_fresh _ _ Hvalid) as (fetched & Hlast & Hage).
    rewrite Httl in Hage. cbn [fst snd].
    split; [|split; [|split]].
    + intros _. eauto.
    + intros fetched' Hlast' Hage'. exfalso.
      rewrite Hlast in Hlast'. injection Hlast' as <-. lia.
    + discriminate.
    + intros request [].
  - destruct (ensureValidToken w) as [accessToken|e1]; cbn [fst snd].
    2:{ split; [discriminate|]. split; [|split].
        - intros fetched _ _. split; [eauto | discriminate].
        - reflexivity.
        - intros request [H|[]]. discriminate. }
    destruct (getMCPEndpoint w) as [endpoint_|e2]; cbn [fst snd].
    2:{ split; [discriminate|]. split; [|split].
        - intros fetched _ _. split; [eauto | discriminate].
        - reflexivity.
        - intros request [H|[H|[]]]; discriminate. }
    set (request := list_request w accessToken endpoint_).
    split; [|split; [|split]].
    + destruct (list_tools w this request) as [outcome this']. discriminate.
    + intros fetched _ _. split.
      { destruct (list_tools w this request) as [outcome this']. eauto. }
      intros tools.
      destruct (list_tools_outcome w this request)
        as [[error ->]|[->|(response & Hpost & ->)]]; cbn [fst snd].
      * discriminate.
      * intros [= <-]. now left.
      * intros [= <-]. right. exists request, response. cbn. auto 10.
    + intros error.
      destruct (list_tools_outcome w this request)
        as [[e ->]|[->|(response & Hpost & ->)]]; cbn [fst snd];
        trivial; discriminate.
    + intros request' Hin Hfail.
      assert (request' = request) as ->.
      { destruct (list_tools w this request) as [outcome this'].
        cbn [snd] in Hin. destruct Hin as [H|[H|[H|[]]]]; congruence. }
      destruct (list_tools_fails w this request Hfail) as (error & ->).
      cbn [fst snd]. eauto.
Qed.

Lemma fetchTools_cache_invariant_witness :
  (exists rest, (fetchTools unreachable_world cached_client).2 = EnsureValidToken :: rest)
  /\ (fetchTools unreachable_world cached_client).1.2 = cached_client.
Proof.
  destruct (fetchTools_cache_invariant unreachable_world cached_client eq_refl)
    as (_ & Hstale & Hframe & _).
  split.
  - apply (Hstale 1700000000000); [reflexivity | vm_compute; discriminate].
  - apply (Hframe (Error "Failed to fetch tools: Network Error")). reflexivity.
Defined.

End McpToolsFacts.

(* ===================================================================== *)
(** * Part III. Further properties of the code                            *)
(* ===================================================================== *)

(** ** The callback listener: every path of [handleRequest] *)

Section CallbackServerPaths.

Import CallbackServer Scenarios.

Context {E : Type}.

Implicit Types (this : callback_server) (searchParams : list (string * string)).
Implicit Types (onCodeReceived : option string -> list E * completion unit).

(** The five ways through [handleRequest], with the trace of each. *)
Lemma handleRequest_cases this pathname searchParams expectedState onCodeReceived :
  let code := searchParams_get "code" searchParams in
  let state := searchParams_get "state" searchParams in
  let error := searchParams_get "error" searchParams in
  handleRequest (Url pathname searchParams) expectedState onCodeReceived this
  = if negb (String.eqb pathname "/callback") then (Normal tt, this, [])
    else if param_truthy error then
      (Normal tt, closed this,
       [Now (WriteHead 500);
        Now (End_ (ErrorPage "Authentication Failed" (default EmptyString error)))]
       ++ close_trace this
       ++ [Now (AuthPromiseReject (Error (default EmptyString error)))])
    else if state_differs state expectedState then
      (Normal tt, closed this,
       [Now (WriteHead 400);
        Now (End_ (ErrorPage "Invalid State" "CSRF validation failed. Please try again."))]
       ++ close_trace this
       ++ [Now (AuthPromiseReject (Error "Invalid state parameter"))])
    else
      match onCodeReceived code with
      | (effects, Normal _) =>
          (Normal tt, this,
           [Now (OnCodeReceived code effects); Now (WriteHead 200); Now (End_ SuccessPage);
            SetTimeout CloseThenResolve 3000])
      | (effects, Thrown e) =>
          (Normal tt, closed this,
           [Now (OnCodeReceived code effects); Now (WriteHead 500);
            Now (End_ (ErrorPage "Token Exchange Failed" (err_message e)))]
           ++ close_trace this
           ++ [Now (AuthPromiseReject e)])
      end.
Proof.
  cbv zeta. unfold handleRequest.
  destruct (negb (String.eqb pathname "/callback")); [reflexivity|].
  destruct (param_truthy _); [apply failure_sequence|].
  destruct (state_differs _ _); [apply failure_sequence|].
  destruct (onCodeReceived _) as [effects [[]|e]] eqn:Hcall.
  - unfold try_, seq_, call_handler. rewrite Hcall. reflexivity.
  - unfold try_. unfold seq_ at 1, call_handler. rewrite Hcall.
    rewrite failure_sequence. reflexivity.
Qed.

Lemma handleRequest_malformed this e expectedState onCodeReceived :
  handleRequest (Malformed e) expectedState onCodeReceived this = (Thrown e, this, []).
Proof. reflexivity. Qed.

Ltac handleRequest_by_cases req this :=
  destruct req as [e|pathname searchParams];
  [ rewrite handleRequest_malformed
  | rewrite handleRequest_cases; cbn [accepted on_callback_path param];
    destruct (String.eqb pathname "/callback"); cbn [negb andb];
    [ destruct (param_truthy (searchParams_get "error" searchParams)) eqn:Herror;
      cbn [negb andb];
      [ | destruct (state_differs (searchParams_get "state" searchParams) _) eqn:Hstate;
          cbn [negb andb] ]
    | ] ];
  try match goal with
  | |- context [match ?h ?c with _ => _ end] =>
      destruct (h c) as [effects [[]|failure]]
  end;
  destruct this as [port_ [[]|]].

(** X1.  The code handler is called exactly when the request is on the
    callback path, carries no (non-empty) [error] parameter and carries the
    expected [state]; it is then called once, with the [code] parameter of
    the request, which is [null] when the request has none. *)
Theorem handler_called_iff_accepted this req expectedState onCodeReceived :
  handler_calls (handleRequest req expectedState onCodeReceived this).2
  = (if accepted req expectedState
     then [(param "code" req, (onCodeReceived (param "code" req)).1)]
     else [])
  /\ (accepted req expectedState = true
      <-> exists pathname searchParams,
            req = Url pathname searchParams
            /\ pathname = "/callback"
            /\ (searchParams_get "error" searchParams = None
                \/ searchParams_get "error" searchParams = Some EmptyString)
            /\ searchParams_get "state" searchParams = Some expectedState).
Proof.
  split.
  - handleRequest_by_cases req this; reflexivity.
  - split.
    + destruct req as [e|pathname searchParams]; [discriminate|]. cbn [accepted].
      intros H. apply andb_prop in H as [H Hstate]. apply andb_prop in H as [Hpath Herr].
      exists pathname, searchParams. split; [reflexivity|].
      apply String.eqb_eq in Hpath. split; [exact Hpath|]. split.
      * destruct (searchParams_get "error" searchParams) as [err|]; [|now left].
        right. cbn in Herr. apply Bool.negb_true_iff, Bool.negb_false_iff in Herr.
        apply String.eqb_eq in Herr. now subst.
      * destruct (searchParams_get "state" searchParams) as [st|]; [|discriminate].
        cbn in Hstate. apply Bool.negb_true_iff, Bool.negb_false_iff in Hstate.
        apply String.eqb_eq in Hstate. now subst.
    + intros (pathname & searchParams & -> & -> & Herr & Hstate).
      cbn [accepted]. rewrite Hstate. cbn [state_differs].
      rewrite !String.eqb_refl. destruct Herr as [-> | ->]; reflexivity.
Qed.


Lemma fire_closes_then_resolves this (callback : @timer_callback) :
  @fire E callback this
  = (Normal tt, closed this, close_trace this ++ [Now AuthPromiseResolve]).
Proof.
  destruct callback. unfold fire, seq_. rewrite close_closes. reflexivity.
Qed.

(** X3.  What the caller awaiting the flow learns.  During [handleRequest]
    the future is rejected once on a failing callback (with the provider's
    error text, with "Invalid state parameter", or with the very error the
    code handler threw) and is never resolved; on success nothing is
    rejected and one timer is armed, for 3000 ms.  When that timer runs, on
    the instance as it is by then, it closes the server if there still is
    one, leaves the instance without a server, and then resolves the future,
    once, rejecting nothing. *)
Theorem flow_settlement this req expectedState onCodeReceived :
  let run := handleRequest req expectedState onCodeReceived this in
  let error := param "error" req in
  (rejections run.2, timers run.2)
  = (if negb (on_callback_path req) then ([], [])
     else if param_truthy error then ([Error (default EmptyString error)], [])
     else if state_differs (param "state" req) expectedState then
       ([Error "Invalid state parameter"], [])
     else
       match (onCodeReceived (param "code" req)).2 with
       | Normal _ => ([], [(CloseThenResolve, 3000%Z)])
       | Thrown e => ([e], [])
       end)
  /\ resolutions run.2 = 0
  /\ (forall callback ms later,
        In (callback, ms) (timers run.2) ->
        let fired := @fire E callback later in
        fired.1 = (Normal tt, closed later)
        /\ fired.2 = close_trace later ++ [Now AuthPromiseResolve]
        /\ closes fired.2 = (match server later with Some _ => 1 | None => 0 end)
        /\ resolutions fired.2 = 1
        /\ rejections fired.2 = []).
Proof.
  cbv zeta. split; [|split].
  - handleRequest_by_cases req this; reflexivity.
  - handleRequest_by_cases req this; reflexivity.
  - intros callback ms later _. rewrite fire_closes_then_resolves. cbn [fst snd].
    destruct later as [port_ [[]|]]; repeat split.
Qed.

(** X4.  The listening server is torn down by every failing callback and by
    nothing else: after a callback that is answered with a failure page the
    instance holds no server, and the server was closed once if there was
    one; after a successful callback, a request on another path or a
    malformed request, the instance is unchanged and nothing was closed. *)
Theorem server_teardown this req expectedState onCodeReceived :
  let run := handleRequest req expectedState onCodeReceived this in
  let fails :=
    on_callback_path req
    && negb (accepted req expectedState
             && match (onCodeReceived (param "code" req)).2 with
                | Normal _ => true
                | Thrown _ => false
                end) in
  (run.1.2, closes run.2)
  = if fails
    then (closed this, match server this with Some _ => 1 | None => 0 end)
    else (this, 0).
Proof.
  cbv zeta. handleRequest_by_cases req this; reflexivity.
Qed.

(** X5.  [close] is idempotent: closing twice leaves the same instance and
    the same trace as closing once, so the underlying server is closed at
    most once. *)
Theorem close_idempotent this :
  seq_ (@close E) (fun _ => close) this = close this
  /\ server (@close E this).1.2 = None
  /\ closes (@close E this).2 <= 1.
Proof.
  destruct this as [port_ [[]|]]; cbn; repeat split; lia.
Qed.

End CallbackServerPaths.

Lemma handler_called_iff_accepted_witness :
  CallbackServer.accepted (CallbackServer.Url "/callback" [("code", "abc"); ("state", "generated")]) "generated" = true.
Proof.
  apply (proj2 (handler_called_iff_accepted Scenarios.listening
                  (CallbackServer.Url "/callback" [("code", "abc"); ("state", "generated")]) "generated"
                  (fun _ => (@nil unit, Normal tt)))).
  exists "/callback", [("code", "abc"); ("state", "generated")].
  repeat split. now left.
Defined.

(** ** The session store: writing, reading back, removing *)

Section SessionFileFacts.

Import SessionStorage Scenarios.

Implicit Types (self : storage) (fs : fs_behaviour) (file : option file_text).

Lemma json_roundtrip_truthy value written :
  json_roundtrip value = Some written -> truthy written = truthy value.
Proof.
  destruct value; cbn; intros [= <-]; reflexivity.
Qed.

(** Reading a property of an object that went through JSON. *)
Lemma get_json_roundtrip (props : gmap string jsval) k :
  truthy (get (JObj (omap json_roundtrip props)) k) = truthy (get (JObj props) k).
Proof.
  cbn [get]. rewrite lookup_omap.
  destruct (props !! k) as [value|]; [|reflexivity]. cbn.
  destruct (json_roundtrip value) as [written|] eqn:H.
  - cbn. now apply json_roundtrip_truthy.
  - destruct value; try discriminate. reflexivity.
Qed.

(** X6.  What [save] writes, [load] reads back: after a [save] that met no
    failure, whatever the file held before, a [load] that can read the file
    returns the saved data as JSON renders it, and the saved data itself
    when it is JSON data. *)
Theorem save_then_load self fs fs' data file written :
  mkdir_error fs = None -> writeFile_error fs = None ->
  readFile_error fs' = None ->
  json_roundtrip data = Some written ->
  let saved := save self fs data file in
  saved.1 = Normal tt
  /\ load (observe self fs' saved.2) = Normal written
  /\ (written = data -> load (observe self fs' saved.2) = Normal data).
Proof.
  intros Hmk Hwr Hrd Hjson saved. subst saved. unfold save.
  rewrite Hmk, Hjson, Hwr. cbn [fst snd]. unfold observe. rewrite Hrd.
  repeat split. now intros ->.
Qed.

Lemma save_then_load_witness :
  load (observe sessions_dir working_fs
          (save sessions_dir working_fs session_record
             (Some (Garbled "Unexpected token"))).2)
  = Normal session_record.
Proof.
  apply (save_then_load sessions_dir working_fs working_fs session_record
           (Some (Garbled "Unexpected token")) session_record);
    reflexivity.
Defined.

(** X7.  [save] surfaces every failure: it returns normally only when the
    directory could be made, the data has a JSON text and the file could be
    written; otherwise it throws the very error of the step that failed,
    and it has not touched the file when that step is [mkdir] or when the
    data has no JSON text. *)
Theorem save_surfaces_failures self fs data file :
  let saved := save self fs data file in
  (saved.1 = Normal tt
   <-> mkdir_error fs = None /\ json_roundtrip data <> None /\ writeFile_error fs = None)
  /\ (forall error, mkdir_error fs = Some error -> saved = (Thrown error, file))
  /\ (mkdir_error fs = None -> json_roundtrip data = None ->
      saved = (Thrown (invalid_data_error fs), file))
  /\ (forall error file',
        mkdir_error fs = None -> json_roundtrip data <> None ->
        writeFile_error fs = Some (error, file') ->
        saved = (Thrown error, file')).
Proof.
  cbv zeta. unfold save.
  destruct (mkdir_error fs) as [e1|]; cbn [fst].
  { repeat split; try discriminate; try congruence.
    intros (H & _); discriminate. }
  destruct (json_roundtrip data) as [written|]; cbn [fst].
  2:{ repeat split; try discriminate; try congruence.
      intros (_ & H & _); congruence. }
  destruct (writeFile_error fs) as [[e2 file2]|]; cbn [fst].
  { repeat split; try discriminate; try congruence.
    intros (_ & _ & H); discriminate. }
  repeat split; try discriminate; try congruence.
Qed.

Lemma save_surfaces_failures_witness :
  save sessions_dir full_disk_fs session_record None
  = (Thrown enospc, Some (Garbled "Unexpected end of JSON input")).
Proof.
  apply (proj2 (proj2 (proj2 (save_surfaces_failures sessions_dir full_disk_fs
                                 session_record None)))).
  - reflexivity.
  - vm_compute. discriminate.
  - reflexivity.
Defined.

(** X8.  After [save], [isAuthenticated] is decided by the saved data alone:
    for an object it is true exactly when the [authenticated] and [tokens]
    fields of that object are truthy; passing through JSON changes neither. *)
Theorem save_then_isAuthenticated self fs fs' (data : gmap string jsval) file :
  mkdir_error fs = None -> writeFile_error fs = None ->
  readFile_error fs' = None ->
  isAuthenticated (observe self fs' (save self fs (JObj data) file).2)
  = Normal (truthy (get (JObj data) "authenticated") && truthy (get (JObj data) "tokens")).
Proof.
  intros Hmk Hwr Hrd. unfold save. rewrite Hmk, Hwr. cbn [json_roundtrip snd].
  unfold observe. rewrite Hrd.
  rewrite (isAuthenticated_loaded (Decodes _) _ eq_refl).
  now rewrite !get_json_roundtrip.
Qed.

Lemma save_then_isAuthenticated_witness :
  isAuthenticated
    (observe sessions_dir working_fs
       (save sessions_dir working_fs session_record None).2)
  = Normal true.
Proof.
  exact (save_then_isAuthenticated sessions_dir working_fs working_fs _ None
           eq_refl eq_refl eq_refl).
Defined.

(** X9.  [clear] logs the user out: it never raises, and after a [clear]
    whose [unlink] met no failure other than the absence of the file,
    [load] returns [null] and [isAuthenticated] returns false, whatever the
    file held; clearing again changes nothing. *)
Theorem clear_logs_out self fs fs' fs'' file :
  unlink_error fs = None -> readFile_error fs' = None ->
  let cleared := clear self fs file in
  cleared = (Normal tt, None)
  /\ load (observe self fs' cleared.2) = Normal JNull
  /\ isAuthenticated (observe self fs' cleared.2) = Normal false
  /\ clear self fs'' cleared.2 = (Normal tt, None).
Proof.
  intros Hun Hrd cleared. subst cleared. unfold clear. rewrite Hun. cbn [snd].
  unfold observe. rewrite Hrd.
  repeat split. now destruct (unlink_error fs'').
Qed.

Lemma clear_logs_out_witness :
  isAuthenticated
    (observe sessions_dir working_fs
       (clear sessions_dir working_fs (Some (JsonText session_record))).2)
  = Normal false.
Proof.
  apply (clear_logs_out sessions_dir working_fs working_fs working_fs
           (Some (JsonText session_record)) eq_refl eq_refl).
Defined.

(** X10.  [clear] swallows every failure of [unlink], not only the absence
    of the file: when the file cannot be removed, [clear] still returns
    normally, the file is what it was, and a session that was authenticated
    is still reported authenticated. *)
Theorem clear_swallows_failures self fs fs' file error :
  unlink_error fs = Some error ->
  let cleared := clear self fs file in
  cleared = (Normal tt, file)
  /\ load (observe self fs' cleared.2) = load (observe self fs' file)
  /\ isAuthenticated (observe self fs' cleared.2) = isAuthenticated (observe self fs' file).
Proof.
  intros Hun cleared. subst cleared. unfold clear. rewrite Hun. repeat split.
Qed.

Lemma clear_swallows_failures_witness :
  clear sessions_dir read_only_fs (Some (JsonText session_record))
  = (Normal tt, Some (JsonText session_record))
  /\ isAuthenticated
       (observe sessions_dir working_fs
          (clear sessions_dir read_only_fs (Some (JsonText session_record))).2)
     = Normal true.
Proof.
  destruct (clear_swallows_failures sessions_dir read_only_fs working_fs
              (Some (JsonText session_record)) eacces eq_refl) as (H1 & _ & H3).
  split; [exact H1|]. rewrite H3. vm_compute. reflexivity.
Defined.

End SessionFileFacts.

(** ** The token service: how its operations compose *)

Section TokenLifecycle.

Import TokenExchange Scenarios.

#[local] Open Scope Z_scope.

Lemma shouldRefreshToken_numeric w (tokens : gmap string jsval) expires_at :
  tokens !! "expires_at" = Some (JNum expires_at) ->
  shouldRefreshToken w tokens = (expires_at - now w <? 300000).
Proof.
  intros H. unfold shouldRefreshToken. cbn [get]. rewrite H. reflexivity.
Qed.

Lemma get_number_object o k n : get o k = JNum n -> o <> JNull /\ o <> JUndefined.
Proof. destruct o; try discriminate; split; discriminate. Qed.

Lemma get_prop_readable o k :
  o <> JNull -> o <> JUndefined -> get_prop o k = Normal (get o k).
Proof. destruct o; intros; congruence || reflexivity. Qed.



(** What the two functions return, by the outcome of the request. *)
Lemma exchange_resolved w code cfg verifier response :
  post w (exchange_request code cfg verifier) = Resolved response ->
  data response <> JNull -> data response <> JUndefined ->
  exchangeCodeForTokens w code cfg verifier
  = Normal (JObj (exchanged_record w cfg (data response))).
Proof.
  intros Hpost Hnull Hundef. unfold exchangeCodeForTokens. rewrite Hpost.
  cbn [await bind]. now rewrite !get_prop_readable by assumption.
Qed.


Lemma refresh_resolved w (tokens : gmap string jsval) response :
  post w (refresh_request tokens) = Resolved response ->
  data response <> JNull -> data response <> JUndefined ->
  refreshAccessToken w tokens
  = Normal (JObj (refreshed_record w tokens (data response))).
Proof.
  intros Hpost Hnull Hundef. unfold refreshAccessToken. rewrite Hpost.
  cbn [await bind]. now rewrite !get_prop_readable by assumption.
Qed.


Lemma expiry_numeric w body seconds :
  get body "expires_in" = JNum seconds -> expiry w body = JNum (now w + seconds * 1000).
Proof. intros H. unfold expiry. now rewrite H. Qed.

(** X11.  A record returned by [exchangeCodeForTokens] for a response
    granting [seconds] seconds is due for refresh, at any reading of the
    clock, exactly when less than five minutes of those seconds are left;
    so a token granted for less than 300 seconds is due for refresh from
    the moment it is obtained. *)
Theorem exchanged_token_refresh_due w w' code cfg verifier response seconds :
  post w (exchange_request code cfg verifier) = Resolved response ->
  get (data response) "expires_in" = JNum seconds ->
  exists tokens,
    exchangeCodeForTokens w code cfg verifier = Normal (JObj tokens)
    /\ (shouldRefreshToken w' tokens = true
        <-> now w + seconds * 1000 - now w' < 300000)
    /\ (shouldRefreshToken w tokens = true <-> seconds < 300).
Proof.
  intros Hpost Hsec. destruct (get_number_object _ _ _ Hsec) as [Hnull Hundef].
  eexists. split; [exact (exchange_resolved _ _ _ _ _ Hpost Hnull Hundef)|].
  rewrite !(shouldRefreshToken_numeric _ _ (now w + seconds * 1000)).
  - rewrite !Z.ltb_lt. split; [reflexivity | lia].
  - unfold exchanged_record. rewrite (expiry_numeric _ _ _ Hsec). now simplify_map_eq.
  - unfold exchanged_record. rewrite (expiry_numeric _ _ _ Hsec). now simplify_map_eq.
Qed.

Lemma exchanged_token_refresh_due_witness :
  exists tokens,
    exchangeCodeForTokens granting_world (JStr "abc") sandbox (JStr "verifier")
    = Normal (JObj tokens)
    /\ (shouldRefreshToken later_world tokens = true
        <-> 1700000000000 + 3600 * 1000 - 1700000300001 < 300000)
    /\ (shouldRefreshToken granting_world tokens = true <-> 3600 < 300).
Proof.
  apply (exchanged_token_refresh_due granting_world later_world (JStr "abc") sandbox
           (JStr "verifier") {| status := 200; data := issued |} 3600).
  - reflexivity.
  - vm_compute. reflexivity.
Defined.

(** X12.  Once a token is due for refresh it stays due: for one record and
    one engine, if [shouldRefreshToken] is true at some reading of the
    clock it is true at every later reading. *)
Theorem refresh_due_is_monotone w w' (tokens : gmap string jsval) :
  coerce w' = coerce w -> now w <= now w' ->
  shouldRefreshToken w tokens = true -> shouldRefreshToken w' tokens = true.
Proof.
  intros Hco Hnow. unfold shouldRefreshToken, sub, arith. rewrite Hco.
  destruct (to_number (coerce w) (get (JObj tokens) "expires_at")); try discriminate.
  cbn [to_number lt_num]. rewrite !Z.ltb_lt. lia.
Qed.

Lemma refresh_due_is_monotone_witness :
  shouldRefreshToken later_world stored_tokens = true.
Proof.
  apply (refresh_due_is_monotone
           {| now := 1700000000001; post := post granting_world;
              coerce := coerce granting_world |}
           later_world stored_tokens).
  - reflexivity.
  - vm_compute. discriminate.
  - vm_compute. reflexivity.
Defined.

(** X13.  A token whose lifetime the provider did not state is due for
    refresh or not according to where the record is read.  When the response
    has no [expires_in], the record returned by [exchangeCodeForTokens] has
    [expires_at] equal to [NaN] and [shouldRefreshToken] is false for it at
    every reading of the clock.  Once a session that holds the record under
    [tokens] has been saved and loaded, [expires_at] is [null], since JSON
    has no [NaN], and [shouldRefreshToken] is true for the loaded record at
    every reading of the clock after -300000, that is always. *)
Theorem undated_token_flips_when_reloaded w w' code cfg verifier response
    self fs fs' file (session : gmap string jsval) :
  post w (exchange_request code cfg verifier) = Resolved response ->
  data response <> JNull -> data response <> JUndefined ->
  get (data response) "expires_in" = JUndefined ->
  SessionStorage.mkdir_error fs = None -> SessionStorage.writeFile_error fs = None ->
  SessionStorage.readFile_error fs' = None ->
  exists tokens,
    exchangeCodeForTokens w code cfg verifier = Normal (JObj tokens)
    /\ tokens !! "expires_at" = Some JNaN
    /\ shouldRefreshToken w' tokens = false
    /\ (session !! "tokens" = Some (JObj tokens) ->
        exists loaded stored,
          SessionStorage.load
            (SessionStorage.observe self fs'
               (SessionStorage.save self fs (JObj session) file).2)
          = Normal loaded
          /\ get loaded "tokens" = JObj stored
          /\ stored !! "expires_at" = Some JNull
          /\ shouldRefreshToken w' stored = (- 300000 <? now w')).
Proof.
  intros Hpost Hnull Hundef Hexp Hmk Hwr Hrd.
  eexists. split; [exact (exchange_resolved _ _ _ _ _ Hpost Hnull Hundef)|].
  assert (H : exchanged_record w cfg (data response) !! "expires_at" = Some JNaN).
  { unfold exchanged_record, expiry. rewrite Hexp. now simplify_map_eq. }
  split; [exact H|]. split.
  { unfold shouldRefreshToken. cbn [get]. rewrite H. reflexivity. }
  intros Hsession.
  exists (JObj (omap SessionStorage.json_roundtrip session)),
         (omap SessionStorage.json_roundtrip (exchanged_record w cfg (data response))).
  assert (Hstored : omap SessionStorage.json_roundtrip
                      (exchanged_record w cfg (data response)) !! "expires_at"
                    = Some JNull).
  { rewrite lookup_omap, H. reflexivity. }
  split; [|split; [|split; [exact Hstored|]]].
  - unfold SessionStorage.save. rewrite Hmk. cbn [SessionStorage.json_roundtrip].
    rewrite Hwr. cbn [snd]. unfold SessionStorage.observe. rewrite Hrd. reflexivity.
  - cbn [get]. rewrite lookup_omap, Hsession. reflexivity.
  - unfold shouldRefreshToken. cbn [get]. rewrite Hstored.
    cbn [default from_option id]. unfold sub, arith. cbn [to_number lt_num].
    apply eq_true_iff_eq. rewrite !Z.ltb_lt. lia.
Qed.

Lemma undated_token_flips_when_reloaded_witness :
  exists tokens,
    exchangeCodeForTokens undated_world (JStr "abc") sandbox (JStr "verifier")
    = Normal (JObj tokens)
    /\ tokens !! "expires_at" = Some JNaN
    /\ shouldRefreshToken later_world tokens = false
    /\ exists loaded stored,
         SessionStorage.load
           (SessionStorage.observe sessions_dir working_fs
              (SessionStorage.save sessions_dir working_fs
                 (JObj (<["authenticated" := JBool true]> (<["tokens" := JObj tokens]> ∅)))
                 None).2)
         = Normal loaded
         /\ get loaded "tokens" = JObj stored
         /\ stored !! "expires_at" = Some JNull
         /\ shouldRefreshToken later_world stored = true.
Proof.
  destruct (undated_token_flips_when_reloaded undated_world later_world (JStr "abc") sandbox
              (JStr "verifier") {| status := 200; data := undated |}
              sessions_dir working_fs working_fs None
              (<["authenticated" := JBool true]>
                 (<["tokens" := JObj (exchanged_record undated_world sandbox undated)]> ∅))
              eq_refl)
    as (tokens & Hrun & Hat & Hmem & Hfile);
    try reflexivity; try discriminate.
  assert (Htokens : tokens = exchanged_record undated_world sandbox undated).
  { vm_compute in Hrun. injection Hrun as <-. vm_compute. reflexivity. }
  exists tokens. split; [exact Hrun|]. split; [exact Hat|]. split; [exact Hmem|].
  subst tokens.
  destruct Hfile as (loaded & stored & Hload & Htok & Hnull & Hdue); [reflexivity|].
  exists loaded, stored. repeat split; trivial.
Defined.

(** X14.  After a refresh, the next refresh asks the same account for the
    same client, and presents the refresh token that the provider has just
    issued, or the previous one when it issued none. *)
Theorem refresh_chain w (tokens : gmap string jsval) response :
  post w (refresh_request tokens) = Resolved response ->
  data response <> JNull -> data response <> JUndefined ->
  exists newTokens,
    refreshAccessToken w tokens = Normal (JObj newTokens)
    /\ refresh_request newTokens
       = {| account := account (refresh_request tokens);
            params :=
              [("grant_type", JStr "refresh_token");
               ("refresh_token",
                js_or (get (data response) "refresh_token")
                      (get (JObj tokens) "refresh_token"));
               ("client_id", get (JObj tokens) "clientId")] |}.
Proof.
  intros Hpost Hnull Hundef.
  eexists. split; [exact (refresh_resolved _ _ _ Hpost Hnull Hundef)|].
  unfold refresh_request, refreshed_record. cbn [get account].
  now simplify_map_eq.
Qed.

Lemma refresh_chain_witness :
  exists newTokens,
    refreshAccessToken granting_world stored_tokens = Normal (JObj newTokens)
    /\ refresh_request newTokens
       = {| account := JStr "123-sb1";
            params := [("grant_type", JStr "refresh_token");
                       ("refresh_token", JStr "RT1");
                       ("client_id", JStr "cid")] |}.
Proof.
  apply (refresh_chain granting_world stored_tokens {| status := 200; data := issued |});
    (reflexivity || discriminate).
Defined.





End TokenLifecycle.

(** ** The tools client: cache, lookup and execution *)

Section McpToolsLifecycle.

Import TokenExchange McpTools Scenarios.

#[local] Open Scope Z_scope.

Implicit Types (w : world) (this : tools_client).

Lemma truthy_tools_of response :
  truthy (js_and (get (data response) "result")
                 (get (get (data response) "result") "tools"))
  = truthy (tools_of response).
Proof.
  unfold js_and, tools_of.
  destruct (truthy (get (data response) "result")) eqn:H; [reflexivity|].
  destruct (get (data response) "result"); try discriminate; exact H.
Qed.

(** The instance after a listing was stored. *)
Lemma list_tools_stores w this request response :
  post w request = Resolved response -> lists_tools response ->
  list_tools w this request
  = (Normal (tools_of response),
     {| toolsCache := tools_of response;
        lastToolsFetch := Some (now_at_store w);
        toolsCacheTTL := toolsCacheTTL this |}).
Proof.
  intros Hpost (Hnull & Hundef & Herr & Htools).
  unfold list_tools, list_body. rewrite Hpost. cbn [await bind].
  rewrite get_prop_readable by assumption. cbn [bind]. rewrite Herr.
  now rewrite truthy_tools_of, Htools.
Qed.

Lemma fetchTools_remote w this accessToken endpoint_ :
  cache_valid w this = false ->
  ensureValidToken w = Normal accessToken ->
  getMCPEndpoint w = Normal endpoint_ ->
  fetchTools w this
  = (let request := list_request w accessToken endpoint_ in
     let '(outcome, this') := list_tools w this request in
     (outcome, this', [EnsureValidToken; GetAccountId; Post request])).
Proof.
  intros Hvalid Htoken Hendpoint. unfold fetchTools.
  now rewrite Hvalid, Htoken, Hendpoint.
Qed.

Lemma cache_valid_after_store w' tools stored ttl :
  truthy tools = true -> stored <> 0 ->
  cache_valid w' {| toolsCache := tools; lastToolsFetch := Some stored;
                    toolsCacheTTL := ttl |}
  = (now_at_check w' - stored <? ttl).
Proof.
  intros Htools Hstored. unfold cache_valid. cbn. rewrite Htools.
  apply Z.eqb_neq in Hstored. now rewrite Hstored.
Qed.

(** X17.  A list that was fetched is served again without any call for as
    long as it is younger than the TTL, and fetched anew once it is not:
    after a [fetchTools] that stored a listing at time [now_at_store], a
    second [fetchTools] that reads the clock less than the TTL later returns
    the same list from the cache and calls nobody; one that reads it the TTL
    or more later goes back to the OAuth manager. *)
Theorem fetched_list_is_cached w w' this accessToken endpoint_ response :
  cache_valid w this = false ->
  ensureValidToken w = Normal accessToken ->
  getMCPEndpoint w = Normal endpoint_ ->
  post w (list_request w accessToken endpoint_) = Resolved response ->
  lists_tools response ->
  now_at_store w <> 0 ->
  let first := fetchTools w this in
  let second := fetchTools w' first.1.2 in
  first.1.1 = Normal (tools_of response)
  /\ (now_at_check w' - now_at_store w < toolsCacheTTL this ->
      second = (Normal (tools_of response), first.1.2, []))
  /\ (toolsCacheTTL this <= now_at_check w' - now_at_store w ->
      exists rest, second.2 = EnsureValidToken :: rest).
Proof.
  intros Hvalid Htoken Hendpoint Hpost Hlists Hstore first second.
  subst second first.
  rewrite (fetchTools_remote _ _ _ _ Hvalid Htoken Hendpoint). cbv zeta.
  rewrite (list_tools_stores _ _ _ _ Hpost Hlists). cbn [fst snd].
  destruct Hlists as (_ & _ & _ & Htools).
  split; [reflexivity|]. unfold fetchTools at 1 2.
  rewrite (cache_valid_after_store _ _ _ _ Htools Hstore). cbn [toolsCache].
  split.
  - intros Hage. apply Z.ltb_lt in Hage. now rewrite Hage.
  - intros Hage. apply Z.ltb_ge in Hage. rewrite Hage.
    destruct (ensureValidToken w'); [|eauto].
    destruct (getMCPEndpoint w'); [|eauto].
    destruct (list_tools _ _ _). eauto.
Qed.

Lemma fetched_list_is_cached_witness :
  let first := fetchTools (listing_world 1700000300000) fresh_client in
  fetchTools (listing_world 1700000540500) first.1.2 = (Normal one_tool, first.1.2, []).
Proof.
  cbv zeta.
  refine (proj1 (proj2 (fetched_list_is_cached (listing_world 1700000300000)
            (listing_world 1700000540500) fresh_client (JStr "AT1") (JStr "123-sb1")
            {| status := 200;
               data := JObj (<["result" := JObj (<["tools" := one_tool]> ∅)]> ∅) |}
            _ _ _ _ _ _)) _); try reflexivity.
  - repeat split; try discriminate; vm_compute; reflexivity.
  - discriminate.
Defined.

(** X18.  After [clearCache] nothing is served from the cache: the next
    [fetchTools] goes to the OAuth manager whatever the clock reads, and
    [getCacheStatus] reports no cache; the TTL is kept. *)
Theorem clearCache_forces_refetch w this now_ string_length :
  (exists rest, (fetchTools w (clearCache this)).2 = EnsureValidToken :: rest)
  /\ getCacheStatus now_ string_length (clearCache this) = <["cached" := JBool false]> ∅
  /\ toolsCacheTTL (clearCache this) = toolsCacheTTL this.
Proof.
  repeat split. unfold fetchTools, cache_valid. cbn.
  destruct (ensureValidToken w); [|eauto].
  destruct (getMCPEndpoint w); [|eauto].
  destruct (list_tools _ _ _). eauto.
Qed.

(** X19.  A response without a list of tools is answered with the empty
    list and is not cached: the instance is left as it was, so the next call
    asks again.  An empty list proper is a list like any other: it is
    stored, with the time of the call. *)
Theorem missing_list_is_not_cached w this accessToken endpoint_ response :
  cache_valid w this = false ->
  ensureValidToken w = Normal accessToken ->
  getMCPEndpoint w = Normal endpoint_ ->
  post w (list_request w accessToken endpoint_) = Resolved response ->
  data response <> JNull -> data response <> JUndefined ->
  truthy (get (data response) "error") = false ->
  let run := fetchTools w this in
  (truthy (tools_of response) = false ->
   run.1 = (Normal (JArr []), this))
  /\ (tools_of response = JArr [] ->
      run.1 = (Normal (JArr []),
               {| toolsCache := JArr []; lastToolsFetch := Some (now_at_store w);
                  toolsCacheTTL := toolsCacheTTL this |})).
Proof.
  intros Hvalid Htoken Hendpoint Hpost Hnull Hundef Herr run. subst run.
  rewrite (fetchTools_remote _ _ _ _ Hvalid Htoken Hendpoint). cbv zeta.
  split.
  - intros Htools. unfold list_tools, list_body. rewrite Hpost. cbn [await bind].
    rewrite get_prop_readable by assumption. cbn [bind]. rewrite Herr.
    now rewrite truthy_tools_of, Htools.
  - intros Htools.
    rewrite (list_tools_stores _ _ _ response Hpost).
    + now rewrite Htools.
    + repeat split; trivial. now rewrite Htools.
Qed.

Lemma missing_list_is_not_cached_witness :
  (fetchTools
     {| now_at_check := 1700000300000;
        ensureValidToken := Normal (JStr "AT1");
        getAccountId := Normal (JStr "123-sb1");
        generateRequestId := "mcp-1700000300000-k3j9x0q2a";
        post := fun _ => Resolved {| status := 200; data := JObj (<["result" := JObj ∅]> ∅) |};
        now_at_store := 1700000300500;
        to_string := fun _ => "[object Object]" |} fresh_client).1
  = (Normal (JArr []), fresh_client).
Proof.
  refine (proj1 (missing_list_is_not_cached _ fresh_client (JStr "AT1") (JStr "123-sb1")
                   {| status := 200; data := JObj (<["result" := JObj ∅]> ∅) |}
                   _ _ _ _ _ _ _) _);
    try reflexivity; try discriminate.
Defined.

(** X20.  The errors of a listing: a request rejected with status 401
    surfaces as the request to re-authenticate, whatever the body; any other
    rejection surfaces as "Failed to fetch tools: " followed by its message;
    a JSON-RPC error in the body surfaces with its message after the same
    prefix, and with the prefix repeated when it has no message. *)
Theorem listing_errors w this accessToken endpoint_ :
  cache_valid w this = false ->
  ensureValidToken w = Normal accessToken ->
  getMCPEndpoint w = Normal endpoint_ ->
  let outcome := post w (list_request w accessToken endpoint_) in
  let raised := (fetchTools w this).1.1 in
  (forall error body,
     outcome = Rejected error -> err_response error = Some (401, body) ->
     raised = Thrown (Error "NetSuite authentication failed. Please re-authenticate."))
  /\ (forall error,
        outcome = Rejected error ->
        (forall body, err_response error <> Some (401, body)) ->
        raised = Thrown (Error ("Failed to fetch tools: " +:+ err_message error)))
  /\ (forall response message,
        outcome = Resolved response ->
        truthy (get (data response) "error") = true ->
        get (get (data response) "error") "message" = JStr message ->
        message <> EmptyString ->
        raised = Thrown (Error ("Failed to fetch tools: " +:+ message)))
  /\ (forall response,
        outcome = Resolved response ->
        truthy (get (data response) "error") = true ->
        truthy (get (get (data response) "error") "message") = false ->
        raised = Thrown (Error "Failed to fetch tools: Failed to fetch tools")).
Proof.
  intros Hvalid Htoken Hendpoint outcome raised. subst outcome raised.
  rewrite (fetchTools_remote _ _ _ _ Hvalid Htoken Hendpoint). cbv zeta.
  unfold list_tools, list_body.
  repeat split.
  - intros error body -> Hresp. cbn. unfold list_handler. now rewrite Hresp.
  - intros error -> Hresp. cbn. unfold list_handler.
    destruct (err_response error) as [[st body]|]; [|reflexivity].
    destruct (Z.eq_dec st 401) as [-> | Hne]; [now destruct (Hresp body)|].
    destruct st as [|p|p]; try reflexivity.
    do 9 (destruct p as [p|p|]; try reflexivity). now destruct Hne.
  - intros response message -> Herr Hmsg Hne. cbn [await bind].
    assert (Hread : get_prop (data response) "error" = Normal (get (data response) "error")).
    { destruct (data response); try discriminate; reflexivity. }
    rewrite Hread. cbn [bind]. rewrite Herr, Hmsg. unfold js_or. cbn [truthy].
    apply String.eqb_neq in Hne. rewrite Hne. reflexivity.
  - intros response -> Herr Hmsg. cbn [await bind].
    assert (Hread : get_prop (data response) "error" = Normal (get (data response) "error")).
    { destruct (data response); try discriminate; reflexivity. }
    rewrite Hread. cbn [bind]. rewrite Herr. unfold js_or. rewrite Hmsg. reflexivity.
Qed.

Lemma listing_errors_witness :
  (fetchTools
     {| now_at_check := 1700000300000;
        ensureValidToken := Normal (JStr "AT1");
        getAccountId := Normal (JStr "123-sb1");
        generateRequestId := "mcp-1700000300000-k3j9x0q2a";
        post := fun _ => Rejected unauthorized;
        now_at_store := 1700000300500;
        to_string := fun _ => "[object Object]" |} fresh_client).1.1
  = Thrown (Error "NetSuite authentication failed. Please re-authenticate.").
Proof.
  refine (proj1 (listing_errors _ fresh_client (JStr "AT1") (JStr "123-sb1") _ _ _)
            unauthorized JNull _ _); reflexivity.
Defined.

(** X21.  [fetchTools] never posts a listing request without a token and an
    account id: a request is posted only after the OAuth manager has given
    a token and a (truthy) account id, in that order, and it carries that
    token as bearer; when the OAuth manager refuses the token, its error is
    raised as it is and neither the account id is asked for nor anything
    posted. *)
Theorem no_listing_without_credentials w this :
  (forall request,
     In (Post request) (fetchTools w this).2 ->
     exists accessToken accountId_,
       ensureValidToken w = Normal accessToken
       /\ getAccountId w = Normal accountId_
       /\ truthy accountId_ = true
       /\ request = list_request w accessToken accountId_
       /\ (fetchTools w this).2 = [EnsureValidToken; GetAccountId; Post request])
  /\ (forall error,
        cache_valid w this = false -> ensureValidToken w = Thrown error ->
        fetchTools w this = (Thrown error, this, [EnsureValidToken])).
Proof.
  split.
  - intros request. unfold fetchTools.
    destruct (cache_valid w this); [intros []|].
    destruct (ensureValidToken w) as [accessToken|e1].
    2:{ intros [H|[]]. discriminate. }
    unfold getMCPEndpoint.
    destruct (getAccountId w) as [accountId_|e2]; cbn [bind].
    2:{ intros [H|[H|[]]]; discriminate. }
    destruct (truthy accountId_) eqn:Hacc.
    2:{ intros [H|[H|[]]]; discriminate. }
    destruct (list_tools _ _ _) as [outcome this']. cbn [snd].
    intros [H|[H|[H|[]]]]; try discriminate. injection H as <-.
    exists accessToken, accountId_. auto.
  - intros error Hvalid Htoken. unfold fetchTools. now rewrite Hvalid, Htoken.
Qed.

Lemma no_listing_without_credentials_witness :
  fetchTools
    {| now_at_check := 1700000300000;
       ensureValidToken := Thrown (Error "Not authenticated. Please authenticate first.");
       getAccountId := Normal (JStr "123-sb1");
       generateRequestId := "mcp-1700000300000-k3j9x0q2a";
       post := fun _ => Rejected unauthorized;
       now_at_store := 1700000300500;
       to_string := fun _ => "[object Object]" |} fresh_client
  = (Thrown (Error "Not authenticated. Please authenticate first."), fresh_client,
     [EnsureValidToken]).
Proof.
  apply (proj2 (no_listing_without_credentials _ fresh_client)); reflexivity.
Defined.

Lemma find_tool_readable toolName items :
  Forall (fun tool => tool <> JNull /\ tool <> JUndefined) items ->
  find_tool toolName items
  = Normal (default JUndefined (List.find (named toolName) items)).
Proof.
  induction 1 as [|tool rest [Hnull Hundef] _ IH]; [reflexivity|].
  cbn [find_tool List.find]. rewrite get_prop_readable by assumption. cbn [bind].
  destruct (named toolName tool); [reflexivity | exact IH].
Qed.

(** X22.  [getTool] looks a tool up in whatever list is cached, however
    old: with a list in the cache it makes no call and leaves the instance
    alone even when [fetchTools] would consider that list expired; it
    returns the first tool of the list that bears the name, and [undefined]
    when none does. *)
Theorem getTool_uses_the_cache_as_it_is w toolName this items :
  toolsCache this = JArr items ->
  Forall (fun tool => tool <> JNull /\ tool <> JUndefined) items ->
  getTool w toolName this
  = (Normal (default JUndefined (List.find (named toolName) items)), this, [])
  /\ (forall tool,
        List.find (named toolName) items = Some tool ->
        In tool items /\ get tool "name" = JStr toolName)
  /\ (List.find (named toolName) items = None ->
      forall tool, In tool items -> get tool "name" <> JStr toolName).
Proof.
  intros Hcache Hitems. unfold getTool. rewrite Hcache. cbn [truthy negb find_in_cache].
  rewrite (find_tool_readable _ _ Hitems).
  split; [reflexivity|]. split.
  - intros tool Hfind. apply find_some in Hfind as [Hin Hnamed].
    split; [exact Hin|]. unfold named in Hnamed.
    destruct (get tool "name"); try discriminate.
    apply String.eqb_eq in Hnamed. now subst.
  - intros Hfind tool Hin Hname.
    pose proof (find_none _ _ Hfind tool Hin) as Hnamed.
    unfold named in Hnamed. rewrite Hname, String.eqb_refl in Hnamed. discriminate.
Qed.

Lemma getTool_uses_the_cache_as_it_is_witness :
  cache_valid (listing_world 1700000300000) hour_old_client = false
  /\ getTool (listing_world 1700000300000) "ns_runCustomSuiteQL" hour_old_client
     = (Normal (JObj (<["name" := JStr "ns_runCustomSuiteQL"]> ∅)), hour_old_client, []).
Proof.
  split; [reflexivity|].
  refine (proj1 (getTool_uses_the_cache_as_it_is (listing_world 1700000300000)
                   "ns_runCustomSuiteQL" hour_old_client two_tools eq_refl _)).
  repeat constructor; discriminate.
Defined.

Lemma round_seconds_bounds ms :
  (1 <= round_seconds ms -> 500 <= ms) /\ (round_seconds ms <= -1 -> ms < -500).
Proof.
  unfold round_seconds. split; intros H; zify; Z.to_euclidean_division_equations; lia.
Qed.

(** X23.  [getCacheStatus] and [fetchTools] agree: when the status of a
    stored list announces at least one second before expiry, [fetchTools]
    at the same reading of the clock serves the list from the cache; when
    it announces an expiry at least one second in the past, [fetchTools]
    goes to the OAuth manager. *)
Theorem cache_status_agrees_with_fetch w string_length this fetched expiresIn :
  truthy (toolsCache this) = true ->
  lastToolsFetch this = Some fetched -> fetched <> 0 ->
  getCacheStatus (now_at_check w) string_length this !! "expiresIn" = Some (JNum expiresIn) ->
  (1 <= expiresIn -> fetchTools w this = (Normal (toolsCache this), this, []))
  /\ (expiresIn <= -1 -> exists rest, (fetchTools w this).2 = EnsureValidToken :: rest).
Proof.
  intros Htruthy Hlast Hne Hstatus.
  unfold getCacheStatus in Hstatus. rewrite Htruthy, Hlast in Hstatus.
  cbn [negb default from_option id] in Hstatus.
  rewrite !lookup_insert_ne, lookup_insert_eq in Hstatus by discriminate.
  injection Hstatus as <-.
  destruct (round_seconds_bounds (toolsCacheTTL this - (now_at_check w - fetched)))
    as [Hpos Hneg].
  unfold fetchTools, cache_valid. rewrite Htruthy, Hlast.
  apply Z.eqb_neq in Hne. rewrite Hne. cbn [negb andb].
  split.
  - intros H. apply Hpos in H.
    assert (E : (now_at_check w - fetched <? toolsCacheTTL this) = true)
      by (apply Z.ltb_lt; lia).
    now rewrite E.
  - intros H. apply Hneg in H.
    assert (E : (now_at_check w - fetched <? toolsCacheTTL this) = false)
      by (apply Z.ltb_ge; lia).
    rewrite E.
    destruct (ensureValidToken w); [|eauto].
    destruct (getMCPEndpoint w); [|eauto].
    destruct (list_tools _ _ _). eauto.
Qed.

Lemma cache_status_agrees_with_fetch_witness :
  exists rest,
    (fetchTools (listing_world 1700000300000) hour_old_client).2 = EnsureValidToken :: rest.
Proof.
  refine (proj2 (cache_status_agrees_with_fetch (listing_world 1700000300000)
                   (fun s => Z.of_nat (String.length s)) hour_old_client
                   1699996700000 (-3300) eq_refl eq_refl _ _) _).
  - discriminate.
  - vm_compute. reflexivity.
  - vm_compute. discriminate.
Defined.

Lemma call_handler_401 error body :
  err_response error = Some (401, body) ->
  call_handler error = Error "NetSuite authentication failed. Please re-authenticate.".
Proof. intros H. unfold call_handler. now rewrite H. Qed.

Lemma call_handler_other error :
  (forall body, err_response error <> Some (401, body)) ->
  call_handler error = Error ("Tool execution failed: " +:+ err_message error).
Proof.
  intros Hresp. unfold call_handler.
  destruct (err_response error) as [[st body]|]; [|reflexivity].
  destruct (Z.eq_dec st 401) as [-> | Hne]; [now destruct (Hresp body)|].
  destruct st as [|p|p]; try reflexivity.
  do 9 (destruct p as [p|p|]; try reflexivity). now destruct Hne.
Qed.

Lemma executeTool_posts w post_call toolName parameters accessToken endpoint_ :
  ensureValidToken w = Normal accessToken ->
  getMCPEndpoint w = Normal endpoint_ ->
  executeTool w post_call toolName parameters
  = match post_call (tool_request w accessToken endpoint_ toolName parameters) with
    | Rejected rejection => Thrown (call_handler rejection)
    | Resolved response =>
        match data response with
        | JNull | JUndefined =>
            Thrown (call_handler (Error (type_error_message (data response) "error")))
        | _ =>
            let error := get (data response) "error" in
            if truthy error then
              Thrown (call_handler
                        (Error_of w (js_or (get error "message")
                                           (JStr "Tool execution failed"))))
            else Normal (get (data response) "result")
        end
    end.
Proof.
  intros Htoken Hendpoint. unfold executeTool. rewrite Htoken, Hendpoint. cbn [bind].
  destruct (post_call _) as [response|rejection]; [|reflexivity].
  cbn [await bind].
  destruct (data response) eqn:Hdata; cbn [get_prop bind try_catch]; try reflexivity;
    match goal with |- context [truthy ?e] => destruct (truthy e) end; reflexivity.
Qed.

(** X24.  The outcomes of [executeTool], with a token and an endpoint.  A
    response whose [data] carries no error gives the [result] of that data,
    whatever it is.  A request rejected with status 401 is raised as the
    request to re-authenticate, and nothing else is; a request rejected
    otherwise is raised as "Tool execution failed: " followed by the message
    of the rejection; a JSON-RPC error in the data is raised with its
    message after the same prefix, and with the prefix repeated when it has
    no message; a response whose [data] is [null] or [undefined] is raised
    with the message of the failed property read after the prefix.  No
    parameters at all is the same as an empty object of parameters. *)
Theorem executeTool_outcomes w post_call toolName parameters accessToken endpoint_ :
  ensureValidToken w = Normal accessToken ->
  getMCPEndpoint w = Normal endpoint_ ->
  let outcome := post_call (tool_request w accessToken endpoint_ toolName parameters) in
  let run := executeTool w post_call toolName parameters in
  (forall response,
     outcome = Resolved response ->
     data response <> JNull -> data response <> JUndefined ->
     truthy (get (data response) "error") = false ->
     run = Normal (get (data response) "result"))
  /\ (forall rejection body,
        outcome = Rejected rejection -> err_response rejection = Some (401, body) ->
        run = Thrown (Error "NetSuite authentication failed. Please re-authenticate."))
  /\ (forall rejection,
        outcome = Rejected rejection ->
        (forall body, err_response rejection <> Some (401, body)) ->
        run = Thrown (Error ("Tool execution failed: " +:+ err_message rejection)))
  /\ (forall response message,
        outcome = Resolved response ->
        truthy (get (data response) "error") = true ->
        get (get (data response) "error") "message" = JStr message ->
        message <> EmptyString ->
        run = Thrown (Error ("Tool execution failed: " +:+ message)))
  /\ (forall response,
        outcome = Resolved response ->
        truthy (get (data response) "error") = true ->
        truthy (get (get (data response) "error") "message") = false ->
        run = Thrown (Error "Tool execution failed: Tool execution failed"))
  /\ (forall response,
        outcome = Resolved response ->
        data response = JNull \/ data response = JUndefined ->
        run = Thrown (Error ("Tool execution failed: "
                             +:+ type_error_message (data response) "error")))
  /\ (run = Thrown (Error "NetSuite authentication failed. Please re-authenticate.") ->
      exists rejection body,
        outcome = Rejected rejection /\ err_response rejection = Some (401, body))
  /\ (forall error,
        run = Thrown error ->
        error = Error "NetSuite authentication failed. Please re-authenticate."
        \/ exists message, error = Error ("Tool execution failed: " +:+ message))
  /\ (truthy parameters = false ->
      run = executeTool w post_call toolName (JObj ∅)).
Proof.
  intros Htoken Hendpoint outcome run. subst outcome run.
  rewrite (executeTool_posts _ _ _ _ _ _ Htoken Hendpoint).
  assert (Hother : forall error,
            err_response error = None ->
            call_handler error = Error ("Tool execution failed: " +:+ err_message error)).
  { intros error Hnone. apply call_handler_other. intros body. now rewrite Hnone. }
  repeat apply conj.
  - intros response -> Hnull Hundef Herr.
    destruct (data response); try congruence; cbv zeta; now rewrite Herr.
  - intros rejection body -> Hresp. now rewrite (call_handler_401 _ _ Hresp).
  - intros rejection -> Hresp. now rewrite (call_handler_other _ Hresp).
  - intros response message -> Herr Hmsg Hne.
    destruct (data response); try discriminate; cbv zeta; rewrite Herr, Hmsg;
      unfold js_or; cbn [truthy]; apply String.eqb_neq in Hne; rewrite Hne;
      reflexivity.
  - intros response -> Herr Hmsg.
    destruct (data response); try discriminate; cbv zeta; rewrite Herr;
      unfold js_or; rewrite Hmsg; reflexivity.
  - intros response -> [Hdata|Hdata]; rewrite Hdata; reflexivity.
  - destruct (post_call _) as [response|rejection].
    + destruct (data response); cbv zeta;
        try match goal with |- context [truthy ?e] => destruct (truthy e) end;
        try discriminate; rewrite Hother by reflexivity; discriminate.
    + intros Hrun. exists rejection.
      destruct (err_response rejection) as [[st body]|] eqn:Hresp.
      * destruct (Z.eq_dec st 401) as [-> | Hne]; [eauto|].
        rewrite call_handler_other in Hrun; [discriminate|].
        intros body' Hbody. rewrite Hresp in Hbody. congruence.
      * rewrite Hother in Hrun by assumption. discriminate.
  - intros error.
    destruct (post_call _) as [response|rejection].
    + destruct (data response); cbv zeta;
        try match goal with |- context [truthy ?e] => destruct (truthy e) end;
        try discriminate; rewrite Hother by reflexivity; intros [= <-]; eauto.
    + intros [= <-].
      destruct (err_response rejection) as [[st body]|] eqn:Hresp.
      * destruct (Z.eq_dec st 401) as [-> | Hne].
        -- left. now apply call_handler_401 with body.
        -- right. rewrite call_handler_other; [eauto|].
           intros body' Hbody. rewrite Hresp in Hbody. congruence.
      * right. rewrite Hother by assumption. eauto.
  - intros Hfalsy. rewrite <- (executeTool_posts _ _ _ _ _ _ Htoken Hendpoint).
    unfold executeTool, tool_request, js_or. rewrite Hfalsy. reflexivity.
Qed.

Lemma executeTool_outcomes_witness :
  executeTool (listing_world 1700000300000) running_endpoint (JStr "ns_runReport") JNull
  = Normal (JObj ∅)
  /\ executeTool (listing_world 1700000300000) failing_endpoint (JStr "ns_runReport") JNull
     = Thrown (Error "Tool execution failed: Invalid search id")
  /\ executeTool (listing_world 1700000300000) (fun _ => Rejected unauthorized)
       (JStr "ns_runReport") JNull
     = Thrown (Error "NetSuite authentication failed. Please re-authenticate.").
Proof.
  destruct (executeTool_outcomes (listing_world 1700000300000) running_endpoint
              (JStr "ns_runReport") JNull (JStr "AT1") (JStr "123-sb1") eq_refl eq_refl)
    as (Hok & _).
  destruct (executeTool_outcomes (listing_world 1700000300000) failing_endpoint
              (JStr "ns_runReport") JNull (JStr "AT1") (JStr "123-sb1") eq_refl eq_refl)
    as (_ & _ & _ & Hfail & _).
  destruct (executeTool_outcomes (listing_world 1700000300000) (fun _ => Rejected unauthorized)
              (JStr "ns_runReport") JNull (JStr "AT1") (JStr "123-sb1") eq_refl eq_refl)
    as (_ & H401 & _).
  split; [|split].
  - rewrite (Hok {| status := 200; data := JObj (<["result" := JObj ∅]> ∅) |});
      try discriminate; vm_compute; reflexivity.
  - rewrite (Hfail {| status := 200;
                      data := JObj (<["error" := JObj (<["message" := JStr "Invalid search id"]> ∅)]> ∅) |}
               "Invalid search id"); try discriminate; vm_compute; reflexivity.
  - exact (H401 unauthorized JNull eq_refl eq_refl).
Defined.

End McpToolsLifecycle.

(** ** PKCE material of any size *)

Section PkceShape.

Import Base64 Rfc4648 Pkce.

Lemma round_length st kw : length st = 8%nat -> length (Sha256.round st kw) = 8%nat.
Proof.
  intros H. do 9 (destruct st as [|? st]; try discriminate). reflexivity.
Qed.

Lemma rounds_length kws st :
  length st = 8%nat -> length (fold_left Sha256.round kws st) = 8%nat.
Proof.
  revert st. induction kws as [|kw kws IH]; intros st H; [exact H|].
  cbn [fold_left]. apply IH. now apply round_length.
Qed.

Lemma compress_length st block :
  length st = 8%nat -> length (Sha256.compress st block) = 8%nat.
Proof.
  intros H. unfold Sha256.compress, Sha256.zip_with_add.
  rewrite length_map, length_combine, rounds_length, H by exact H. reflexivity.
Qed.

Lemma sha256_length msg : length (Sha256.sha256 msg) = 32%nat.
Proof.
  unfold Sha256.sha256. rewrite length_map.
  set (st := fold_left Sha256.compress _ Sha256.H0).
  assert (H : length st = 8%nat).
  { subst st. generalize (Sha256.blocks
      (length (Sha256.be_words (Sha256.pad msg)) / 16)
      (Sha256.be_words (Sha256.pad msg))).
    intros bs. assert (H0 : length Sha256.H0 = 8%nat) by reflexivity.
    revert H0. generalize Sha256.H0.
    induction bs as [|b bs IH]; intros st0 H0; [exact H0|].
    cbn [fold_left]. apply IH. now apply compress_length. }
  do 9 (destruct st as [|? st]; try discriminate). reflexivity.
Qed.

Lemma url_digit_in_alphabet i :
  (i < 64)%N -> In (url_digit i) (list_ascii_of_string url_alphabet).
Proof.
  intros Hi.
  assert (H : (fun i => if in_dec ascii_dec (url_digit i) (list_ascii_of_string url_alphabet)
                        then true else false) i = true).
  { revert i Hi. apply below_64. vm_compute. reflexivity. }
  cbv beta in H. now destruct (in_dec _ _ _).
Qed.

(** X25.  For a buffer of any size, [base64URLEncode] gives a string of
    [ceil(4n/3)] characters, each of them a letter, a digit, ['-'] or
    ['_']. *)
Theorem base64URLEncode_shape (buffer : list byte) :
  String.length (base64URLEncode buffer) = ((4 * length buffer + 2) / 3)%nat
  /\ forall c, In c (list_ascii_of_string (base64URLEncode buffer)) ->
               In c (list_ascii_of_string url_alphabet).
Proof.
  rewrite base64URLEncode_is_base64url. split.
  - apply base64url_nopad_length.
  - intros c Hc. apply base64url_nopad_chars in Hc as (i & Hi & ->).
    now apply url_digit_in_alphabet.
Qed.

(** X26.  The challenge of [generatePKCE] always has 43 characters: the
    SHA-256 digest has 32 bytes whatever the verifier is. *)
Theorem code_challenge_length (randomBytes : nat -> list byte) :
  String.length (code_challenge (generatePKCE randomBytes)) = 43%nat
  /\ forall message, length (Sha256.sha256 message) = 32%nat.
Proof.
  split; [|apply sha256_length].
  unfold generatePKCE. cbn [code_challenge].
  now rewrite base64URLEncode_is_base64url, base64url_nopad_length, sha256_length.
Qed.

End PkceShape.

(** ** The handlers of the MCP server *)

Section McpServerFacts.

Import TokenExchange McpTools McpServer Scenarios.

#[local] Open Scope Z_scope.

Implicit Types (w : McpServer.world) (this : server).

Lemma not_session_valid w valid :
  hasValidSession w = Normal valid -> truthy valid = false -> ~ session_valid w.
Proof.
  intros Hsession Hvalid (valid' & Hsession' & Hvalid'). congruence.
Qed.

Lemma session_check_raised w error :
  hasValidSession w = Thrown error -> ~ session_valid w.
Proof.
  intros Hsession (valid & Hsession' & _). congruence.
Qed.

(** The runs of [handleAuthentication]: it stops before the flow, leaving
    the server as it was and reporting an error (or raising); or it starts
    the flow, once, with an account id that is truthy and a client id that is
    a string, each taken from the arguments when truthy there and from the
    environment otherwise. *)
Lemma handleAuthentication_cases w (args : jsval) this :
  let run := handleAuthentication w args this in
  (run.2 = [] /\ run.1.2 = this /\ succeeded run.1.1 = false)
  \/ exists accountId clientId,
       accountId = js_or (get args "accountId") (NETSUITE_ACCOUNT_ID w)
       /\ JStr clientId = js_or (get args "clientId") (NETSUITE_CLIENT_ID w)
       /\ truthy accountId = true /\ clientId <> EmptyString
       /\ run.2 = [StartAuthFlow accountId (JStr clientId)]
       /\ ((startAuthFlow w accountId (JStr clientId) = Normal tt
            /\ run.1 = (Normal {| text := AuthenticationSucceeded; isError := false |},
                        {| isAuthenticated := JBool true;
                           mcpTools := clearCache (mcpTools this) |}))
           \/ (exists error,
                 startAuthFlow w accountId (JStr clientId) = Thrown error
                 /\ run.1 = (Normal {| text := AuthenticationFailed (err_message error)
                                                 (callbackPort w);
                                       isError := true |}, this))).
Proof.
  cbv zeta. unfold handleAuthentication.
  destruct args; cbn [get_prop]; try (left; repeat split; reflexivity).
  all: set (accountId := js_or _ (NETSUITE_ACCOUNT_ID w));
    set (clientId := js_or _ (NETSUITE_CLIENT_ID w)).
  all: destruct (truthy accountId) eqn:Haccount; cbn [negb orb];
    try (left; repeat split; reflexivity).
  all: destruct (truthy clientId) eqn:Hclient; cbn [negb];
    try (left; repeat split; reflexivity).
  all: destruct clientId as [| | | | |client| |] eqn:Hid;
    try (left; repeat split; reflexivity).
  all: right; exists accountId, client;
    destruct (startAuthFlow w accountId (JStr client)) as [[]|error];
    (split; [reflexivity|]); (split; [now symmetry|]); (split; [assumption|]);
    (split; [now intros ->|]); (split; [reflexivity|]);
    [left; split; reflexivity | right; exists error; split; reflexivity].
Qed.

Lemma handleLogout_cases w this :
  let run := handleLogout w this in
  run.2 = [ClearSession]
  /\ ((clearSession w = Normal tt
       /\ run.1 = (Normal {| text := LoggedOut; isError := false |},
                   {| isAuthenticated := JBool false;
                      mcpTools := clearCache (mcpTools this) |}))
      \/ (exists error,
            clearSession w = Thrown error
            /\ run.1 = (Normal {| text := LogoutFailed (err_message error);
                                  isError := true |}, this))).
Proof.
  cbv zeta. unfold handleLogout.
  destruct (clearSession w) as [[]|error]; split; trivial; [left|right]; eauto.
Qed.

Lemma handleAuthentication_never_executes w (args : jsval) this n a :
  ~ In (ExecuteTool n a) (handleAuthentication w args this).2.
Proof.
  destruct (handleAuthentication_cases w args this)
    as [(-> & _)|(accountId & clientId & _ & _ & _ & _ & -> & _)];
    cbn; intuition discriminate.
Qed.

Lemma handleLogout_never_executes w this n a :
  ~ In (ExecuteTool n a) (handleLogout w this).2.
Proof.
  destruct (handleLogout_cases w this) as (-> & _). cbn. intuition discriminate.
Qed.

Lemma first_tool_of_fallbacks :
  get authenticate_tool "name" = JStr "netsuite_authenticate"
  /\ get authenticate_tool_on_error "name" = JStr "netsuite_authenticate".
Proof. split; vm_compute; reflexivity. Qed.

(** X27.  NetSuite is reached only with a valid session.  [tools/list]
    fetches the tools, and [tools/call] executes the tool it was asked for,
    only when [hasValidSession] answered with a truthy value, and the names
    of the two local tools are never forwarded.  When the check fails or
    answers with a falsy value, the listing starts with the tool
    [netsuite_authenticate] and leaves the tools client as it was, and a call
    of any tool but the two local ones is answered with an error. *)
Theorem remote_access_needs_a_session w this (name args : jsval) :
  let listing := listTools w this in
  let answer := callTool w name args this in
  (forall calls, In (FetchTools calls) listing.2 -> session_valid w)
  /\ (forall n a, In (ExecuteTool n a) answer.2 ->
        session_valid w /\ n = name /\ a = args /\ is_local name = false)
  /\ (~ session_valid w ->
        mcpTools listing.1.2 = mcpTools this
        /\ exists tool rest,
             listing.1.1 = tool :: rest
             /\ get tool "name" = JStr "netsuite_authenticate")
  /\ (~ session_valid w -> is_local name = false -> isError answer.1.1 = true).
Proof.
  cbv zeta. destruct first_tool_of_fallbacks as (Hfirst & Hfirst').
  repeat apply conj.
  - intros calls. unfold listTools, session_valid.
    destruct (hasValidSession w) as [valid|error]; [|cbn; intuition discriminate].
    destruct (truthy valid) eqn:Hvalid; cbn [negb];
      [intros _; exists valid; now split|].
    cbn; intuition discriminate.
  - intros n a. unfold callTool, is_local.
    destruct (is_string "netsuite_authenticate" name) eqn:Hauth.
    { pose proof (handleAuthentication_never_executes w args this n a) as Hnever.
      destruct (handleAuthentication w args this) as [[r this'] calls]. now cbn. }
    destruct (is_string "netsuite_logout" name) eqn:Hlogout.
    { pose proof (handleLogout_never_executes w this n a) as Hnever.
      destruct (handleLogout w this) as [[r this'] calls]. now cbn. }
    unfold session_valid.
    destruct (hasValidSession w) as [valid|error]; [|cbn; intuition discriminate].
    destruct (truthy valid) eqn:Hvalid; cbn [negb]; [|cbn; intuition discriminate].
    cbn. intros [Hin|[Hin|[]]]; [discriminate|]. injection Hin as <- <-.
    repeat split; trivial. exists valid. now split.
  - intros Hno. unfold listTools.
    destruct (hasValidSession w) as [valid|error] eqn:Hsession; [|cbn; eauto].
    destruct (truthy valid) eqn:Hvalid; cbn [negb]; [|cbn; eauto].
    exfalso. apply Hno. exists valid. now split.
  - intros Hno. unfold callTool, is_local. intros Hlocal.
    apply Bool.orb_false_iff in Hlocal as (-> & ->).
    destruct (hasValidSession w) as [valid|error] eqn:Hsession; [|reflexivity].
    destruct (truthy valid) eqn:Hvalid; cbn [negb]; [|reflexivity].
    exfalso. apply Hno. exists valid. now split.
Qed.

(** X28.  A second listing within the TTL comes from the cache.  With a
    valid session, a [tools/list] that fetched an array of tools answers with
    those tools followed by the logout tool; a later [tools/list] whose clock
    reads less than the TTL after the list was stored gives the same answer
    without asking NetSuite, after checking the session again. *)
Theorem second_listing_comes_from_the_cache w w' this accessToken endpoint_ response
    (items : list jsval) :
  session_valid w -> session_valid w' ->
  cache_valid (tools_world w) (mcpTools this) = false ->
  ensureValidToken (tools_world w) = Normal accessToken ->
  getMCPEndpoint (tools_world w) = Normal endpoint_ ->
  post (tools_world w) (list_request (tools_world w) accessToken endpoint_)
  = Resolved response ->
  lists_tools response -> tools_of response = JArr items ->
  now_at_store (tools_world w) <> 0 ->
  now_at_check (tools_world w') - now_at_store (tools_world w)
  < toolsCacheTTL (mcpTools this) ->
  let first := listTools w this in
  let second := listTools w' first.1.2 in
  first.1.1 = items ++ [logout_tool]
  /\ (exists request,
        first.2 = [HasValidSession; FetchTools [EnsureValidToken; GetAccountId; Post request]])
  /\ second.1.1 = items ++ [logout_tool]
  /\ second.2 = [HasValidSession; FetchTools []].
Proof.
  intros (valid & Hsession & Hvalid) (valid' & Hsession' & Hvalid')
    Hcache Htoken Hendpoint Hpost Hlists Hitems Hstore Hage first second.
  subst second first.
  assert (Hfirst : listTools w this
                   = (items ++ [logout_tool],
                      {| isAuthenticated := valid;
                         mcpTools := {| toolsCache := JArr items;
                                        lastToolsFetch := Some (now_at_store (tools_world w));
                                        toolsCacheTTL := toolsCacheTTL (mcpTools this) |} |},
                      [HasValidSession;
                       FetchTools [EnsureValidToken; GetAccountId;
                                   Post (list_request (tools_world w) accessToken endpoint_)]])).
  { unfold listTools. rewrite Hsession, Hvalid. cbn [negb with_flag mcpTools].
    rewrite (fetchTools_remote _ _ _ _ Hcache Htoken Hendpoint). cbv zeta.
    rewrite (list_tools_stores _ _ _ _ Hpost Hlists), Hitems. reflexivity. }
  rewrite Hfirst. cbn [fst snd].
  split; [reflexivity|]. split; [eauto|].
  unfold listTools. rewrite Hsession', Hvalid'. cbn [negb with_flag mcpTools].
  unfold fetchTools. rewrite cache_valid_after_store by trivial.
  apply Z.ltb_lt in Hage. rewrite Hage. cbn. now split.
Qed.

Lemma second_listing_comes_from_the_cache_witness :
  let first := listTools (server_world (JBool true) 1700000300000) new_server in
  (listTools (server_world (JBool true) 1700000540500) first.1.2).2
  = [HasValidSession; FetchTools []].
Proof.
  cbv zeta.
  refine (proj2 (proj2 (proj2
            (second_listing_comes_from_the_cache
               (server_world (JBool true) 1700000300000)
               (server_world (JBool true) 1700000540500)
               new_server (JStr "AT1") (JStr "123-sb1")
               {| status := 200;
                  data := JObj (<["result" := JObj (<["tools" := one_tool]> ∅)]> ∅) |}
               [JObj (<["name" := JStr "ns_runReport"]> ∅)]
               _ _ _ _ _ _ _ _ _ _)))); try reflexivity.
  - exists (JBool true). split; reflexivity.
  - exists (JBool true). split; reflexivity.
  - repeat split; try discriminate; vm_compute; reflexivity.
  - discriminate.
Defined.

(** X29.  The outcomes of [handleAuthentication].  It reports success
    exactly when it started the OAuth flow and the flow completed; the server
    is then marked authenticated and the tools cache is cleared.  In every
    other case (missing credentials, a client id that is not a string, a flow
    that failed, no arguments object) the server is left as it was.  The flow
    is started at most once, with an account id and a client id that are
    truthy, the client id being a string; each is the one of the arguments
    when that is truthy and the one of the environment otherwise. *)
Theorem authentication_outcomes w (args : jsval) this :
  let run := handleAuthentication w args this in
  (succeeded run.1.1 = true <->
   exists accountId clientId,
     In (StartAuthFlow accountId clientId) run.2
     /\ startAuthFlow w accountId clientId = Normal tt)
  /\ (succeeded run.1.1 = true ->
      run.1.2 = {| isAuthenticated := JBool true;
                   mcpTools := clearCache (mcpTools this) |})
  /\ (succeeded run.1.1 = false -> run.1.2 = this)
  /\ (forall accountId clientId,
        In (StartAuthFlow accountId clientId) run.2 ->
        run.2 = [StartAuthFlow accountId clientId]
        /\ accountId = js_or (get args "accountId") (NETSUITE_ACCOUNT_ID w)
        /\ clientId = js_or (get args "clientId") (NETSUITE_CLIENT_ID w)
        /\ truthy accountId = true
        /\ exists s, clientId = JStr s /\ s <> EmptyString).
Proof.
  cbv zeta.
  destruct (handleAuthentication_cases w args this)
    as [(Hcalls & Hthis & Hfailed)
       |(accountId & clientId & Haccount & Hclient & Htruthy & Hnonempty & Hcalls
         & [(Hflow & Hrun)|(error & Hflow & Hrun)])];
    rewrite Hcalls; try rewrite Hrun; try rewrite Hfailed; cbn [fst snd succeeded isError negb].
  - split; [split; [discriminate|now intros (? & ? & [] & _)]|].
    split; [discriminate|]. split; [trivial|]. now intros ? ? [].
  - split; [split; [eauto using in_eq|trivial]|].
    split; [trivial|]. split; [discriminate|].
    intros a c [[= <- <-]|[]]. rewrite <- Hclient. eauto 10.
  - split; [split; [discriminate|]|].
    { intros (a & c & [[= <- <-]|[]] & Hok). congruence. }
    split; [discriminate|]. split; [trivial|].
    intros a c [[= <- <-]|[]]. rewrite <- Hclient. eauto 10.
Qed.

(** X30.  [netsuite_authenticate] needs an arguments object, even when the
    credentials are in the environment.  With a truthy account id and a
    client id that is a non-empty string in the environment, a call whose
    arguments are an object without credentials starts the flow with the
    credentials of the environment; a call without arguments does not look at
    the environment: reading [args.accountId] raises, the handler of
    [tools/call] answers with that error, no flow is started and the server
    is left as it was. *)
Theorem authenticate_needs_an_arguments_object w this (account : jsval) (client : string) :
  NETSUITE_ACCOUNT_ID w = account -> truthy account = true ->
  NETSUITE_CLIENT_ID w = JStr client -> client <> EmptyString ->
  (forall props : gmap string jsval,
     props !! "accountId" = None -> props !! "clientId" = None ->
     (callTool w (JStr "netsuite_authenticate") (JObj props) this).2
     = [StartAuthFlow account (JStr client)])
  /\ callTool w (JStr "netsuite_authenticate") JUndefined this
     = ({| text := ToolError (type_error_message JUndefined "accountId");
           isError := true |}, this, []).
Proof.
  intros Haccount Htruthy Hclient Hnonempty. split; [|reflexivity].
  intros props Hnone Hnone'. unfold callTool. cbn [is_string].
  change (String.eqb "netsuite_authenticate" "netsuite_authenticate") with true.
  unfold handleAuthentication. cbn [get_prop get]. rewrite Hnone, Hnone'.
  cbn [default from_option id]. unfold js_or at 1 2 3 4. cbn [truthy].
  rewrite Haccount, Hclient, Htruthy. cbn [truthy negb orb].
  apply String.eqb_neq in Hnonempty. rewrite Hnonempty. cbn [negb].
  unfold js_or. cbn [truthy].
  now destruct (startAuthFlow w account (JStr client)).
Qed.

Lemma authenticate_needs_an_arguments_object_witness :
  callTool (server_world (JBool false) 1700000300000)
    (JStr "netsuite_authenticate") JUndefined new_server
  = ({| text := ToolError "Cannot read properties of undefined (reading 'accountId')";
        isError := true |}, new_server, []).
Proof.
  refine (proj2 (authenticate_needs_an_arguments_object
                   (server_world (JBool false) 1700000300000) new_server
                   (JStr "123-sb1") "0a1b2c3d4e5f" _ _ _ _)); try reflexivity.
  discriminate.
Defined.

End McpServerFacts.
